(** * The account service of nestjs-graphql-fastify-template

    A shallow embedding of [src/users/users.service.ts]: the operations of
    [UsersService] as functions in a state-and-exception monad over a world
    made of the users table and the session cache, followed by the
    properties of the credential life cycle, of the uniqueness checks and of
    the username generation. *)

From Stdlib Require Import ZArith String Ascii List Lia.
From stdpp Require Import base decidable option list strings pretty gmap.

Local Open Scope string_scope.

(** ** The [$like] operator

    SQL [LIKE]: in the pattern ["%"] matches any run of characters, ["_"]
    matches exactly one character, any other character matches itself. *)
Fixpoint sql_like (pattern : string) : string -> bool :=
  match pattern with
  | EmptyString =>
      fun text => match text with EmptyString => true | _ => false end
  | String c pattern' =>
      if Ascii.eqb c "%" then
        fix any_run (text : string) : bool :=
          sql_like pattern' text
          || match text with
             | EmptyString => false
             | String _ text' => any_run text'
             end
      else if Ascii.eqb c "_" then
        fun text =>
          match text with
          | EmptyString => false
          | String _ text' => sql_like pattern' text'
          end
      else
        fun text =>
          match text with
          | EmptyString => false
          | String d text' => Ascii.eqb c d && sql_like pattern' text'
          end
  end.

(** A string without the characters [LIKE] gives a meaning to (["%"], ["_"]
    and the escape character ["\"]). *)
Fixpoint like_plain (s : string) : bool :=
  match s with
  | EmptyString => true
  | String c s' =>
      negb (Ascii.eqb c "%") && negb (Ascii.eqb c "_")
      && negb (Ascii.eqb c "\") && like_plain s'
  end.

(** ** Exceptions and the service monad *)

(** The exceptions of [@nestjs/common] that the service throws, and the
    error of the storage when a unique column would hold a value twice. *)
Inductive Exception : Type :=
  | UnauthorizedException (message : string)
  | BadRequestException (message : string)
  | ConflictException (message : string)
  | NotFoundException (message : string)
  | UniqueConstraintViolation (column : string).

Inductive Result (A : Type) : Type :=
  | Ok (value : A)
  | Throw (e : Exception).
Arguments Ok {A} value.
Arguments Throw {A} e.

(** The salt that [bcrypt] draws for one call of [hash]. *)
Definition Salt : Type := string.

(** What the service is given and this development does not look into: the
    enums and the session record (their declarations),
    [String.prototype.toLowerCase] of the language (it lowers every cased
    letter, of any alphabet), the two text helpers of [CommonService],
    [bcrypt]'s [hash] and [compare], and the values a new entity has in its
    two status columns. *)
Class Collaborators : Type := {
  OAuthProvidersEnum : Type;
  OnlineStatusEnum : Type;
  ISessionsData : Type;
  toLowerCase : string -> string;
  formatTitle : string -> string;
  generatePointSlug : string -> string;
  hash : string -> nat -> Salt -> string;
  compare : string -> string -> bool;
  initialOnlineStatus : OnlineStatusEnum;
  initialDefaultStatus : OnlineStatusEnum
}.

(** Modelled from the spec: [CredentialsEmbeddable] (its declaration is not
    among the sources), "embedded versioning record: integer version (starts
    at 0, increments on password change or email confirmation), and
    last-password hash". *)
Record CredentialsEmbeddable : Type := {
  cred_version : Z;
  cred_lastPassword : string
}.

Definition newCredentials : CredentialsEmbeddable :=
  {| cred_version := 0; cred_lastPassword := "" |}.

(** Modelled from the spec: [credentials.updateVersion()], the version bump
    of an email confirmation. *)
Definition updateVersion (c : CredentialsEmbeddable) : CredentialsEmbeddable :=
  {| cred_version := cred_version c + 1;
     cred_lastPassword := cred_lastPassword c |}.

(** Modelled from the spec: [credentials.updatePassword(password)], "archives
    old hash into credentials, bumps version". *)
Definition credentials_updatePassword (c : CredentialsEmbeddable)
    (password : string) : CredentialsEmbeddable :=
  {| cred_version := cred_version c + 1;
     cred_lastPassword := password |}.

Section Entities.
Context `{Collaborators}.

(** Modelled from the spec: [UserEntity] (its declaration is not among the
    sources), the columns of section 3 of the specification. *)
Record UserEntity : Type := {
  user_id : nat;
  user_name : string;
  user_username : string;
  user_email : string;
  user_picture : option string;
  user_password : string;
  user_confirmed : bool;
  user_onlineStatus : OnlineStatusEnum;
  user_defaultStatus : OnlineStatusEnum;
  user_credentials : CredentialsEmbeddable;
  user_authProviders : list OAuthProvidersEnum
}.

(** Field assignments [user.f = v]. *)
Definition set_id (u : UserEntity) (v : nat) : UserEntity :=
  {| user_id := v; user_name := user_name u;
     user_username := user_username u; user_email := user_email u;
     user_picture := user_picture u; user_password := user_password u;
     user_confirmed := user_confirmed u;
     user_onlineStatus := user_onlineStatus u;
     user_defaultStatus := user_defaultStatus u;
     user_credentials := user_credentials u;
     user_authProviders := user_authProviders u |}.

Definition set_name (u : UserEntity) (v : string) : UserEntity :=
  {| user_id := user_id u; user_name := v;
     user_username := user_username u; user_email := user_email u;
     user_picture := user_picture u; user_password := user_password u;
     user_confirmed := user_confirmed u;
     user_onlineStatus := user_onlineStatus u;
     user_defaultStatus := user_defaultStatus u;
     user_credentials := user_credentials u;
     user_authProviders := user_authProviders u |}.

Definition set_username (u : UserEntity) (v : string) : UserEntity :=
  {| user_id := user_id u; user_name := user_name u;
     user_username := v; user_email := user_email u;
     user_picture := user_picture u; user_password := user_password u;
     user_confirmed := user_confirmed u;
     user_onlineStatus := user_onlineStatus u;
     user_defaultStatus := user_defaultStatus u;
     user_credentials := user_credentials u;
     user_authProviders := user_authProviders u |}.

Definition set_email (u : UserEntity) (v : string) : UserEntity :=
  {| user_id := user_id u; user_name := user_name u;
     user_username := user_username u; user_email := v;
     user_picture := user_picture u; user_password := user_password u;
     user_confirmed := user_confirmed u;
     user_onlineStatus := user_onlineStatus u;
     user_defaultStatus := user_defaultStatus u;
     user_credentials := user_credentials u;
     user_authProviders := user_authProviders u |}.

Definition set_password (u : UserEntity) (v : string) : UserEntity :=
  {| user_id := user_id u; user_name := user_name u;
     user_username := user_username u; user_email := user_email u;
     user_picture := user_picture u; user_password := v;
     user_confirmed := user_confirmed u;
     user_onlineStatus := user_onlineStatus u;
     user_defaultStatus := user_defaultStatus u;
     user_credentials := user_credentials u;
     user_authProviders := user_authProviders u |}.

Definition set_confirmed (u : UserEntity) (v : bool) : UserEntity :=
  {| user_id := user_id u; user_name := user_name u;
     user_username := user_username u; user_email := user_email u;
     user_picture := user_picture u; user_password := user_password u;
     user_confirmed := v;
     user_onlineStatus := user_onlineStatus u;
     user_defaultStatus := user_defaultStatus u;
     user_credentials := user_credentials u;
     user_authProviders := user_authProviders u |}.

Definition set_onlineStatus (u : UserEntity) (v : OnlineStatusEnum)
    : UserEntity :=
  {| user_id := user_id u; user_name := user_name u;
     user_username := user_username u; user_email := user_email u;
     user_picture := user_picture u; user_password := user_password u;
     user_confirmed := user_confirmed u;
     user_onlineStatus := v;
     user_defaultStatus := user_defaultStatus u;
     user_credentials := user_credentials u;
     user_authProviders := user_authProviders u |}.

Definition set_defaultStatus (u : UserEntity) (v : OnlineStatusEnum)
    : UserEntity :=
  {| user_id := user_id u; user_name := user_name u;
     user_username := user_username u; user_email := user_email u;
     user_picture := user_picture u; user_password := user_password u;
     user_confirmed := user_confirmed u;
     user_onlineStatus := user_onlineStatus u;
     user_defaultStatus := v;
     user_credentials := user_credentials u;
     user_authProviders := user_authProviders u |}.

Definition set_credentials (u : UserEntity) (v : CredentialsEmbeddable)
    : UserEntity :=
  {| user_id := user_id u; user_name := user_name u;
     user_username := user_username u; user_email := user_email u;
     user_picture := user_picture u; user_password := user_password u;
     user_confirmed := user_confirmed u;
     user_onlineStatus := user_onlineStatus u;
     user_defaultStatus := user_defaultStatus u;
     user_credentials := v;
     user_authProviders := user_authProviders u |}.

(** ** The world: the users table, its id sequence and the cache *)
Record World : Type := {
  usersTable : list UserEntity;
  nextId : nat;
  cacheStore : gmap string ISessionsData
}.

Definition set_usersTable (w : World) (t : list UserEntity) : World :=
  {| usersTable := t; nextId := nextId w; cacheStore := cacheStore w |}.

(** A computation of the service: it reads and writes the world and either
    returns a value or throws. The world is returned in both cases. *)
Definition M (A : Type) : Type := World -> Result A * World.

#[export] Instance M_ret : MRet M := fun A a w => (Ok a, w).

#[export] Instance M_bind : MBind M := fun A B f m w =>
  match m w with
  | (Ok a, w') => f a w'
  | (Throw e, w') => (Throw e, w')
  end.

#[export] Instance M_throw : MThrow Exception M := fun A e w => (Throw e, w).
End Entities.

Section Service.
Context `{Collaborators}.

(** ** The repository

    [EntityRepository<UserEntity>]: a where-clause is a decidable predicate
    on rows; [findOne] returns the first row that satisfies it (or
    [null], here [None]) and [count] the number of rows that do. *)
Definition repo_findOne (P : UserEntity -> Prop) `{!forall u, Decision (P u)}
    : M (option UserEntity) :=
  fun w => (Ok (List.find (fun u => bool_decide (P u)) (usersTable w)), w).

Definition repo_count (P : UserEntity -> Prop) `{!forall u, Decision (P u)}
    : M nat :=
  fun w => (Ok (length (filter P (usersTable w))), w).

(** The row stored under an id: what [findOne({ id })] returns. *)
Definition storedUser (w : World) (id : nat) : option UserEntity :=
  List.find (fun u => bool_decide (user_id u = id)) (usersTable w).

(** The table after the row with the id of [user] is overwritten by it. *)
Definition replaceRow (user : UserEntity) (t : list UserEntity)
    : list UserEntity :=
  (fun r => if decide (user_id r = user_id user) then user else r) <$> t.

(** The rows of the table other than the one with the id of [u]. *)
Definition otherRows (u : UserEntity) (t : list UserEntity)
    : list UserEntity :=
  filter (fun r => user_id r <> user_id u) t.

(** The unique column that [u] would hold in common with one of the rows,
    if any (section 6 of the specification: email unique, username
    unique). *)
Definition uniqueViolation (t : list UserEntity) (u : UserEntity)
    : option string :=
  if decide (user_email u ∈ (user_email <$> t)) then Some "email"
  else if decide (user_username u ∈ (user_username <$> t))
  then Some "username"
  else None.

(** ** CommonService *)

(** Modelled from the spec: [CommonService.saveEntity] (not among the
    sources), the "generic save operation" that persists the entity as a
    whole: a new entity is inserted under the next id of the sequence, an
    existing one replaces the row with its id; the storage refuses a
    duplicate in a unique column with a persistence error and writes
    nothing. The entity as it is stored is returned. *)
Definition saveEntity (user : UserEntity) (isNew : bool) : M UserEntity :=
  fun w =>
    if isNew then
      let user' := set_id user (nextId w) in
      match uniqueViolation (usersTable w) user' with
      | Some column => (Throw (UniqueConstraintViolation column), w)
      | None =>
          (Ok user',
           {| usersTable := usersTable w ++ [user'];
              nextId := S (nextId w);
              cacheStore := cacheStore w |})
      end
    else
      match uniqueViolation (otherRows user (usersTable w)) user with
      | Some column => (Throw (UniqueConstraintViolation column), w)
      | None =>
          (Ok user, set_usersTable w (replaceRow user (usersTable w)))
      end.

(** Modelled from the spec: [CommonService.removeEntity] (not among the
    sources), the hard delete of the row. *)
Definition removeEntity (user : UserEntity) : M unit :=
  fun w => (Ok tt, set_usersTable w (otherRows user (usersTable w))).

(** Modelled from the spec: [CommonService.checkEntityExistence] (not among
    the sources): a missing entity is a not-found error (the tests expect
    the message ["User not found"]). *)
Definition checkEntityExistence (entity : option UserEntity) (name : string)
    : M UserEntity :=
  match entity with
  | None => mthrow (NotFoundException (name +:+ " not found"))
  | Some user => mret user
  end.

(** [cacheManager.get(key)]: [None] stands for [undefined] and [null]. *)
Definition cache_get (key : string) : M (option ISessionsData) :=
  fun w => (Ok (cacheStore w !! key), w).

(** Modelled from the spec: the defaults of [UserEntity] (its declaration is
    not among the sources) in the entity that [usersRepository.create]
    builds from the given columns: a new account is unconfirmed, its
    credentials are at version 0, it has no picture, and no id before it is
    saved. *)
Definition repo_create (email name username : string)
    (authProviders : list OAuthProvidersEnum) (password : string)
    : UserEntity :=
  {| user_id := 0; user_name := name; user_username := username;
     user_email := email; user_picture := None; user_password := password;
     user_confirmed := false;
     user_onlineStatus := initialOnlineStatus;
     user_defaultStatus := initialDefaultStatus;
     user_credentials := newCredentials;
     user_authProviders := authProviders |}.

(** ** UsersService *)

Definition throwUnauthorizedException (user : option UserEntity)
    : M UserEntity :=
  match user with
  | None => mthrow (UnauthorizedException "Invalid credentials")
  | Some user => mret user
  end.

Definition checkEmailUniqueness (email : string) : M unit :=
  count ← repo_count (fun u => user_email u = email);
  if (0 <? count)%nat then mthrow (ConflictException "Email already in use")
  else mret tt.

Definition generateUsername (name : string) : M string :=
  let pointSlug := generatePointSlug name in
  count ← repo_count
             (fun u => sql_like (pointSlug +:+ "%") (user_username u));
  if (0 <? count)%nat then mret (pointSlug +:+ pretty count)
  else mret pointSlug.

Definition create (email name : string) (provider : OAuthProvidersEnum)
    (password : option string) (salt : Salt) : M UserEntity :=
  let formattedEmail := toLowerCase email in
  _ ← checkEmailUniqueness formattedEmail;
  let formattedName := formatTitle name in
  username ← generateUsername formattedName;
  let user :=
    repo_create formattedEmail formattedName username [provider]
      (match password with
       | None => "UNSET"
       | Some password => hash password 10 salt
       end) in
  saveEntity user true.

Definition findOneById (id : nat) : M UserEntity :=
  user ← repo_findOne (fun u => user_id u = id);
  checkEntityExistence user "User".

Definition findOneByCredentials (id : nat) (version : Z) : M UserEntity :=
  user ← repo_findOne (fun u => user_id u = id);
  user ← throwUnauthorizedException user;
  if negb (cred_version (user_credentials user) =? version)%Z
  then mthrow (UnauthorizedException "Invalid credentials")
  else mret user.

Definition confirmEmail (userId : nat) (version : Z) : M UserEntity :=
  user ← findOneByCredentials userId version;
  if user_confirmed user
  then mthrow (BadRequestException "Email already confirmed")
  else
    let user := set_confirmed user true in
    let user := set_credentials user (updateVersion (user_credentials user)) in
    saveEntity user false.

Definition updatePassword (userId : nat) (password newPassword : string)
    (salt : Salt) : M UserEntity :=
  user ← findOneById userId;
  if negb (compare password (user_password user))
  then mthrow (BadRequestException "Wrong password")
  else if compare newPassword (user_password user)
  then mthrow (BadRequestException "New password must be different")
  else
    let user :=
      set_credentials user
        (credentials_updatePassword (user_credentials user)
           (user_password user)) in
    let user := set_password user (hash newPassword 10 salt) in
    saveEntity user false.

Definition resetPassword (userId : nat) (version : Z) (password : string)
    (salt : Salt) : M UserEntity :=
  user ← findOneByCredentials userId version;
  let user :=
    set_credentials user
      (credentials_updatePassword (user_credentials user)
         (user_password user)) in
  let user := set_password user (hash password 10 salt) in
  saveEntity user false.

Record UpdateEmailDto : Type := {
  dto_email : string;
  dto_password : string
}.

Definition updateEmail (userId : nat) (updateEmailDto : UpdateEmailDto)
    : M UserEntity :=
  user ← findOneById userId;
  let email := dto_email updateEmailDto in
  let password := dto_password updateEmailDto in
  if negb (compare password (user_password user))
  then mthrow (BadRequestException "Wrong password")
  else
    let formattedEmail := toLowerCase email in
    if bool_decide (user_email user = formattedEmail)
    then mthrow (BadRequestException "Email should be different")
    else
      _ ← checkEmailUniqueness formattedEmail;
      let user := set_email user formattedEmail in
      saveEntity user false.

Definition delete (userId : nat) (password : string) : M UserEntity :=
  user ← findOneById userId;
  if negb (compare password (user_password user))
  then mthrow (BadRequestException "Wrong password")
  else
    _ ← removeEntity user;
    mret user.

Definition updateName (userId : nat) (name : string) : M UserEntity :=
  let formatName := formatTitle name in
  user ← findOneById userId;
  let user := set_name user formatName in
  username ← generateUsername formatName;
  let user := set_username user username in
  saveEntity user false.

Definition updateOnlineStatus (userId : nat) (onlineStatus : OnlineStatusEnum)
    : M UserEntity :=
  user ← findOneById userId;
  let user := set_defaultStatus user onlineStatus in
  data ← cache_get ("sessions:" +:+ pretty userId);
  let user :=
    match data with
    | Some _ => set_onlineStatus user onlineStatus
    | None => user
    end in
  saveEntity user false.

(** ** Runs of [create] *)

Record CreateCall : Type := {
  call_email : string;
  call_name : string;
  call_provider : OAuthProvidersEnum;
  call_password : option string;
  call_salt : Salt
}.

Definition runCreate (c : CreateCall) : M UserEntity :=
  create (call_email c) (call_name c) (call_provider c) (call_password c)
    (call_salt c).

(** The calls are made one after the other, each on the world the previous
    one left; the outcomes are collected in the order of the calls. *)
Fixpoint createAll (calls : list CreateCall) (w : World)
    : list (Result UserEntity) * World :=
  match calls with
  | [] => ([], w)
  | c :: calls' =>
      let '(r, w') := runCreate c w in
      let '(rs, w'') := createAll calls' w' in
      (r :: rs, w'')
  end.

(** The users that a run created. *)
Definition created (rs : list (Result UserEntity)) : list UserEntity :=
  omap (fun r => match r with Ok u => Some u | Throw _ => None end) rs.

(** ** Vocabulary of the statements *)

(** The number of stored usernames that match [LIKE 'slug%']. *)
Definition likeCount (slug : string) (t : list UserEntity) : nat :=
  length (filter (fun u => sql_like (slug +:+ "%") (user_username u)) t).

(** A slug followed by a count, and the slug alone when the count is 0. *)
Definition numberedSlug (slug : string) (count : nat) : string :=
  if (0 <? count)%nat then slug +:+ pretty count else slug.

(** The stored usernames that start with [slug], in the order of the
    table. *)
Definition startingWith (slug : string) (t : list UserEntity)
    : list string :=
  user_username
    <$> filter (fun u => String.prefix slug (user_username u) = true) t.

(** The point slug that a call of [create] derives from its name. *)
Definition slugOf (c : CreateCall) : string :=
  generatePointSlug (formatTitle (call_name c)).

(** Two slugs neither of which starts with the other. *)
Definition unrelated (s t : string) : Prop :=
  String.prefix s t = false /\ String.prefix t s = false.

(** The users of a list whose name has the point slug [slug]. *)
Definition withSlug (slug : string) (us : list UserEntity)
    : list UserEntity :=
  filter (fun u => generatePointSlug (user_name u) = slug) us.

(** The entity after the two assignments of a password change: the
    credentials archive the current hash and move to the next version, then
    the password column takes the new hash. *)
Definition withPassword (u : UserEntity) (hashed : string) : UserEntity :=
  set_password
    (set_credentials u
       (credentials_updatePassword (user_credentials u) (user_password u)))
    hashed.

(** The world after the row with the id of [u] is overwritten by [u]. *)
Definition overwrite (w : World) (u : UserEntity) : World :=
  set_usersTable w (replaceRow u (usersTable w)).

(** ** The invariant of the storage

    Ids, emails and usernames are unique, and every id was drawn from the
    sequence. *)
Definition wf_world (w : World) : Prop :=
  NoDup (user_id <$> usersTable w)
  /\ NoDup (user_email <$> usersTable w)
  /\ NoDup (user_username <$> usersTable w)
  /\ Forall (fun u => user_id u < nextId w) (usersTable w).

(** A computation that keeps the invariant, whatever it returns. *)
Definition keeps_wf {A : Type} (m : M A) : Prop :=
  forall w r w', wf_world w -> m w = (r, w') -> wf_world w'.

Definition emptyWorld : World :=
  {| usersTable := []; nextId := 1; cacheStore := ∅ |}.
End Service.

Section Lookups.
Context `{Collaborators}.

(** ** UsersService: the lookups by name and the change of username *)

Definition findOneByUsername (username : string) (forAuth : bool)
    : M UserEntity :=
  user ← repo_findOne (fun u => user_username u = toLowerCase username);
  if forAuth then throwUnauthorizedException user
  else checkEntityExistence user "User".

Definition findOneByEmail (email : string) : M UserEntity :=
  user ← repo_findOne (fun u => user_email u = toLowerCase email);
  throwUnauthorizedException user.

Definition uncheckedUserByEmail (email : string) : M (option UserEntity) :=
  repo_findOne (fun u => user_email u = toLowerCase email).

Definition checkUsernameUniqueness (username : string) : M unit :=
  count ← repo_count (fun u => user_username u = username);
  if (0 <? count)%nat
  then mthrow (ConflictException "Username already in use")
  else mret tt.

Definition updateUsername (userId : nat) (username : string) : M UserEntity :=
  user ← findOneById userId;
  let formattedUsername := toLowerCase username in
  _ ← checkUsernameUniqueness formattedUsername;
  let user := set_username user formattedUsername in
  saveEntity user false.

(** ** Vocabulary of the further statements *)

(** The first row whose email, resp. username, is the given one: what
    [findOne({ email })] and [findOne({ username })] return. *)
Definition userByEmail (w : World) (email : string) : option UserEntity :=
  List.find (fun u => bool_decide (user_email u = email)) (usersTable w).

Definition userByUsername (w : World) (username : string)
    : option UserEntity :=
  List.find (fun u => bool_decide (user_username u = username)) (usersTable w).

(** A user whose email is its own lower-case form, and a world where every
    stored user is such. *)
Definition lowerEmail (u : UserEntity) : Prop :=
  toLowerCase (user_email u) = user_email u.

Definition emailsLower (w : World) : Prop :=
  Forall lowerEmail (usersTable w).

(** A computation that keeps the property [I] of the world, whatever it
    returns, and whose returned value satisfies [Q]. *)
Definition keeping {A : Type} (I : World -> Prop) (m : M A) (Q : A -> Prop)
    : Prop :=
  forall w r w', I w -> m w = (r, w') -> I w' /\ forall a, r = Ok a -> Q a.
End Lookups.

(** ** A sample instance of the collaborators

    Small stand-ins used to run the service on concrete inputs, which are
    written with the letters of the English alphabet: lower-casing maps
    ["A".."Z"] to ["a".."z"], names are kept as they are (they are given
    title-cased), the point slug of a one-word name is its lower-case form,
    and a toy [bcrypt] has hashes of the shape ["$salt$data"]. *)
Module Sample.
Inductive Provider : Type := LOCAL | GOOGLE.
Inductive Status : Type := ONLINE | BUSY | OFFLINE.

(** Lower-casing of the letters ["A".."Z"]; the sample inputs have no other
    cased letter. *)
Definition lowerAscii (c : ascii) : ascii :=
  let n := nat_of_ascii c in
  if (65 <=? n)%nat && (n <=? 90)%nat then ascii_of_nat (n + 32) else c.

Fixpoint toLowerAscii (s : string) : string :=
  match s with
  | EmptyString => EmptyString
  | String c s' => String (lowerAscii c) (toLowerAscii s')
  end.

Fixpoint afterDollar (s : string) : option string :=
  match s with
  | EmptyString => None
  | String c s' => if Ascii.eqb c "$" then Some s' else afterDollar s'
  end.

Definition toyHash (data : string) (rounds : nat) (salt : Salt) : string :=
  "$" +:+ salt +:+ "$" +:+ data.

Definition toyCompare (data encrypted : string) : bool :=
  match encrypted with
  | EmptyString => false
  | String c rest =>
      if Ascii.eqb c "$" then
        match afterDollar rest with
        | Some data' => String.eqb data data'
        | None => false
        end
      else false
  end.

#[local] Instance collaborators : Collaborators :=
  {| OAuthProvidersEnum := Provider;
     OnlineStatusEnum := Status;
     ISessionsData := nat;
     formatTitle := fun name => name;
     toLowerCase := toLowerAscii;
     generatePointSlug := toLowerAscii;
     hash := toyHash;
     compare := toyCompare;
     initialOnlineStatus := OFFLINE;
     initialDefaultStatus := ONLINE |}.

Definition call (email name : string) (password : option string)
    : CreateCall :=
  {| call_email := email; call_name := name; call_provider := LOCAL;
     call_password := password; call_salt := "s4lt" |}.

(** Three registrations; the first and the third have the same name. *)
Definition johns : list CreateCall :=
  [ call "A@x.com" "John" (Some "pw-a");
    call "b@x.com" "Johnny" (Some "pw-b");
    call "c@x.com" "John" None ].

(** Three registrations under one name. *)
Definition threeJohns : list CreateCall :=
  [ call "a@x.com" "John" (Some "pw-a");
    call "b@x.com" "John" (Some "pw-b");
    call "c@x.com" "John" None ].

(** The first user that [johns] registers. *)
Definition john : UserEntity :=
  {| user_id := 1; user_name := "John"; user_username := "john";
     user_email := "a@x.com"; user_picture := None;
     user_password := "$s4lt$pw-a"; user_confirmed := false;
     user_onlineStatus := OFFLINE; user_defaultStatus := ONLINE;
     user_credentials := newCredentials;
     user_authProviders := [LOCAL] |}.

(** [john] once his email is confirmed. *)
Definition johnConfirmed : UserEntity :=
  set_credentials (set_confirmed john true)
    (updateVersion (user_credentials john)).

(** The second user that [johns] registers. *)
Definition johnny : UserEntity :=
  {| user_id := 2; user_name := "Johnny"; user_username := "johnny";
     user_email := "b@x.com"; user_picture := None;
     user_password := "$s4lt$pw-b"; user_confirmed := false;
     user_onlineStatus := OFFLINE; user_defaultStatus := ONLINE;
     user_credentials := newCredentials;
     user_authProviders := [LOCAL] |}.

(** The third user that [johns] registers, without a password. *)
Definition john2 : UserEntity :=
  {| user_id := 3; user_name := "John"; user_username := "john2";
     user_email := "c@x.com"; user_picture := None;
     user_password := "UNSET"; user_confirmed := false;
     user_onlineStatus := OFFLINE; user_defaultStatus := ONLINE;
     user_credentials := newCredentials;
     user_authProviders := [LOCAL] |}.

(** The outcomes of the two runs from the empty store. *)
Definition johnsRun : list (Result UserEntity) :=
  (createAll johns emptyWorld).1.

Definition threeJohnsRun : list (Result UserEntity) :=
  (createAll threeJohns emptyWorld).1.

(** The world after the three registrations of [johns]. *)
Definition world3 : World :=
  snd (createAll johns emptyWorld).

(** [world3] with a session open for user 1. *)
Definition world3s : World :=
  {| usersTable := usersTable world3; nextId := nextId world3;
     cacheStore := <["sessions:1" := 7]> (cacheStore world3) |}.

(** The world after the registration of one user named "John". *)
Definition worldJohn : World :=
  snd (createAll [call "a@x.com" "John" (Some "pw-a")] emptyWorld).

(** The world after the registration of one user named "John1". *)
Definition worldJohn1 : World :=
  snd (createAll [call "a@x.com" "John1" (Some "pw-a")] emptyWorld).

(** A fourth user, registered in [world3] under "D@x.com" without a
    password, and the world after that registration. *)
Definition dan : UserEntity :=
  {| user_id := 4; user_name := "Dan"; user_username := "dan";
     user_email := "d@x.com"; user_picture := None;
     user_password := "UNSET"; user_confirmed := false;
     user_onlineStatus := OFFLINE; user_defaultStatus := ONLINE;
     user_credentials := newCredentials;
     user_authProviders := [LOCAL] |}.

Definition worldDan : World :=
  {| usersTable := usersTable world3 ++ [dan];
     nextId := 5;
     cacheStore := cacheStore world3 |}.
End Sample.

(** * Properties *)

(** ** Strings and [LIKE] *)

Lemma sql_like_percent (text : string) : sql_like "%" text = true.
Proof.
  induction text as [|c text IH]; [reflexivity|].
  cbn in *. exact IH.
Qed.

Lemma prefix_nil (t : string) : String.prefix "" t = true.
Proof. destruct t; reflexivity. Qed.

(** For a slug free of wild cards, [LIKE 'slug%'] is the prefix test. *)
Lemma sql_like_prefix (s text : string) :
  like_plain s = true -> sql_like (s +:+ "%") text = String.prefix s text.
Proof.
  revert text. induction s as [|c s IH]; intros text Hplain.
  - change ("" +:+ "%") with "%". now rewrite sql_like_percent, prefix_nil.
  - cbn in Hplain.
    destruct (Ascii.eqb c "%") eqn:E1; [discriminate|].
    destruct (Ascii.eqb c "_") eqn:E2; [discriminate|].
    destruct (Ascii.eqb c "\") eqn:E3; [discriminate|].
    cbn in Hplain.
    change (String c s +:+ "%") with (String c (s +:+ "%")).
    cbn [sql_like]. rewrite E1, E2.
    destruct text as [|d text]; [reflexivity|].
    cbn [String.prefix]. destruct (ascii_dec c d) as [->|Hne].
    + rewrite Ascii.eqb_refl. cbn. auto.
    + apply Ascii.eqb_neq in Hne. rewrite Hne. reflexivity.
Qed.

Lemma prefix_app (s r : string) : String.prefix s (s +:+ r) = true.
Proof.
  induction s as [|c s IH]; [apply prefix_nil|].
  change (String c s +:+ r) with (String c (s +:+ r)).
  cbn. destruct (ascii_dec c c); [exact IH|congruence].
Qed.

(** A prefix of [t ++ r] is a prefix of [t] or is prefixed by [t]. *)
Lemma prefix_app_cases (s t r : string) :
  String.prefix s (t +:+ r) = true ->
  String.prefix s t = true \/ String.prefix t s = true.
Proof.
  revert t. induction s as [|c s IH]; intros t Hp; [left; apply prefix_nil|].
  destruct t as [|d t]; [right; reflexivity|].
  change (String d t +:+ r) with (String d (t +:+ r)) in Hp.
  cbn in *. destruct (ascii_dec c d) as [->|Hne]; [|discriminate].
  destruct (ascii_dec d d); [|congruence]. auto.
Qed.

Lemma string_app_nil_r (s : string) : s +:+ "" = s.
Proof.
  induction s as [|c s IH]; [reflexivity|].
  change (String c s +:+ "") with (String c (s +:+ "")). congruence.
Qed.

Lemma string_app_eq_self (s r : string) : s +:+ r = s -> r = "".
Proof.
  intros Heq. apply (inj (String.app s)). now rewrite string_app_nil_r.
Qed.

Lemma pretty_N_go_length (x : N) (acc : string) :
  String.length acc <= String.length (pretty_N_go x acc).
Proof.
  revert acc. induction (N.lt_wf_0 x) as [x _ IH]; intros acc.
  destruct (decide (x = 0%N)) as [->|Hx]; [reflexivity|].
  rewrite pretty_N_go_step by lia.
  etransitivity; [|apply IH, N.div_lt; lia]. cbn. lia.
Qed.

(** The decimal form of a number is never the empty string. *)
Lemma pretty_nat_nonempty (n : nat) : pretty n <> "".
Proof.
  unfold pretty, pretty_nat, pretty, pretty_N.
  destruct (decide (N.of_nat n = 0%N)) as [_|Hne]; [discriminate|].
  intros Heq. rewrite pretty_N_go_step in Heq by lia.
  pose proof (pretty_N_go_length (N.of_nat n `div` 10)
    (String (pretty_N_char (N.of_nat n `mod` 10)) "")) as Hlen.
  rewrite Heq in Hlen. cbn in Hlen. lia.
Qed.

Section Properties.
Context `{Collaborators}.
Implicit Types (w : World) (u r : UserEntity) (t : list UserEntity).

(** ** The users table *)

Lemma storedUser_Some w id u :
  storedUser w id = Some u -> (u ∈ usersTable w) /\ user_id u = id.
Proof.
  unfold storedUser. intros Hfind. apply find_some in Hfind as [Hin Hid].
  split; [now apply list_elem_of_In|]. now apply bool_decide_eq_true in Hid.
Qed.

Lemma storedUser_None w id r :
  storedUser w id = None -> r ∈ usersTable w -> user_id r <> id.
Proof.
  unfold storedUser. intros Hfind Hin Hid.
  apply list_elem_of_In in Hin.
  pose proof (find_none _ _ Hfind r Hin) as Hno. cbn in Hno.
  apply bool_decide_eq_false in Hno. contradiction.
Qed.

(** Reading a row back after it was overwritten. *)
Lemma find_replaceRow t u' j :
  List.find (fun u => bool_decide (user_id u = j)) (replaceRow u' t)
  = if decide (j = user_id u')
    then match List.find (fun u => bool_decide (user_id u = j)) t with
         | Some _ => Some u'
         | None => None
         end
    else List.find (fun u => bool_decide (user_id u = j)) t.
Proof.
  unfold replaceRow. induction t as [|r t IH]; cbn.
  - now destruct (decide (j = user_id u')).
  - destruct (decide (user_id r = user_id u')) as [Hr|Hr].
    + destruct (decide (j = user_id u')) as [->|Hj].
      * rewrite !bool_decide_eq_true_2 by congruence. reflexivity.
      * rewrite !bool_decide_eq_false_2 by congruence.
        rewrite IH. now destruct (decide (j = user_id u')).
    + destruct (bool_decide (user_id r = j)) eqn:Hb.
      * apply bool_decide_eq_true in Hb.
        destruct (decide (j = user_id u')); [congruence|reflexivity].
      * exact IH.
Qed.

Lemma storedUser_replaceRow w u u' j :
  storedUser w (user_id u') = Some u ->
  storedUser (overwrite w u') j
  = if decide (j = user_id u') then Some u' else storedUser w j.
Proof.
  unfold storedUser, overwrite. cbn. intros Hu. rewrite find_replaceRow.
  destruct (decide (j = user_id u')) as [->|]; [now rewrite Hu|reflexivity].
Qed.

(** In a column without duplicates a value names its row. *)
Lemma NoDup_fmap_elem {B} (f : UserEntity -> B) t u r :
  NoDup (f <$> t) -> u ∈ t -> r ∈ t -> f u = f r -> u = r.
Proof.
  induction t as [|x t IH]; intros Hnd Hu Hr Heq.
  - now apply elem_of_nil in Hu.
  - rewrite fmap_cons in Hnd. apply NoDup_cons in Hnd as [Hx Hnd].
    apply elem_of_cons in Hu as [->|Hu]; apply elem_of_cons in Hr as [->|Hr].
    + reflexivity.
    + exfalso. apply Hx. rewrite Heq. now apply list_elem_of_fmap_2.
    + exfalso. apply Hx. rewrite <- Heq. now apply list_elem_of_fmap_2.
    + now apply IH.
Qed.

Lemma elem_of_otherRows u r t :
  r ∈ otherRows u t <-> user_id r <> user_id u /\ (r ∈ t).
Proof. unfold otherRows. now rewrite list_elem_of_filter. Qed.

Lemma uniqueViolation_None t u :
  uniqueViolation t u = None
  <-> (user_email u ∉ (user_email <$> t))
      /\ (user_username u ∉ (user_username <$> t)).
Proof.
  unfold uniqueViolation.
  destruct (decide (user_email u ∈ (user_email <$> t)));
    [split; [discriminate|tauto]|].
  destruct (decide (user_username u ∈ (user_username <$> t)));
    [split; [discriminate|tauto]|].
  tauto.
Qed.

Lemma uniqueViolation_Some t u column :
  uniqueViolation t u = Some column ->
  (user_email u ∈ (user_email <$> t))
  \/ (user_username u ∈ (user_username <$> t)).
Proof.
  unfold uniqueViolation.
  destruct (decide (user_email u ∈ (user_email <$> t))); [tauto|].
  destruct (decide (user_username u ∈ (user_username <$> t))); [tauto|].
  discriminate.
Qed.

(** The email of a stored row is held by no other row. *)
Lemma wf_email_others w u u' :
  wf_world w -> u ∈ usersTable w -> user_id u' = user_id u ->
  user_email u ∉ (user_email <$> otherRows u' (usersTable w)).
Proof.
  intros (_ & Hemail & _) Hu Hid Hin.
  apply list_elem_of_fmap in Hin as (r & Heq & Hr).
  apply elem_of_otherRows in Hr as [Hne Hr].
  apply Hne. rewrite Hid. f_equal.
  now apply (NoDup_fmap_elem user_email (usersTable w)).
Qed.

Lemma wf_username_others w u u' :
  wf_world w -> u ∈ usersTable w -> user_id u' = user_id u ->
  user_username u ∉ (user_username <$> otherRows u' (usersTable w)).
Proof.
  intros (_ & _ & Huname & _) Hu Hid Hin.
  apply list_elem_of_fmap in Hin as (r & Heq & Hr).
  apply elem_of_otherRows in Hr as [Hne Hr].
  apply Hne. rewrite Hid. f_equal.
  now apply (NoDup_fmap_elem user_username (usersTable w)).
Qed.

(** ** The steps of the service *)

Lemma findOneById_run w id :
  findOneById id w
  = match storedUser w id with
    | Some u => (Ok u, w)
    | None => (Throw (NotFoundException "User not found"), w)
    end.
Proof.
  unfold findOneById, mbind, M_bind, repo_findOne. fold (storedUser w id).
  now destruct (storedUser w id).
Qed.

Lemma findOneByCredentials_run w id version :
  findOneByCredentials id version w
  = match storedUser w id with
    | Some u =>
        if (cred_version (user_credentials u) =? version)%Z
        then (Ok u, w)
        else (Throw (UnauthorizedException "Invalid credentials"), w)
    | None => (Throw (UnauthorizedException "Invalid credentials"), w)
    end.
Proof.
  unfold findOneByCredentials, mbind, M_bind, repo_findOne.
  fold (storedUser w id). destruct (storedUser w id) as [u|]; cbn; [|done].
  now destruct (cred_version (user_credentials u) =? version)%Z.
Qed.

Lemma count_pos_elem {B} `{EqDecision B} (f : UserEntity -> B) t (b : B) :
  (0 <? length (filter (fun u => f u = b) t))%nat = true <-> b ∈ (f <$> t).
Proof.
  rewrite Nat.ltb_lt. induction t as [|x t IH].
  - cbn. split; [lia|]. intros Hin. now apply elem_of_nil in Hin.
  - rewrite filter_cons, fmap_cons, elem_of_cons.
    destruct (decide (f x = b)) as [Hx|Hx]; cbn.
    + split; [auto|lia].
    + rewrite IH. split; [tauto|]. intros [Heq|Hin]; [congruence|exact Hin].
Qed.

Lemma checkEmailUniqueness_run w email :
  checkEmailUniqueness email w
  = if decide (email ∈ (user_email <$> usersTable w))
    then (Throw (ConflictException "Email already in use"), w)
    else (Ok tt, w).
Proof.
  unfold checkEmailUniqueness, mbind, M_bind, repo_count.
  destruct (0 <? length (filter (fun u => user_email u = email)
                           (usersTable w)))%nat eqn:Hc.
  - apply count_pos_elem in Hc. now rewrite decide_True.
  - rewrite decide_False; [reflexivity|].
    intros Hin. apply count_pos_elem in Hin. congruence.
Qed.

(** Saving a stored row whose unique columns clash with no other row
    overwrites that row and nothing else. *)
Lemma saveEntity_update_run w u' :
  user_email u' ∉ (user_email <$> otherRows u' (usersTable w)) ->
  user_username u' ∉ (user_username <$> otherRows u' (usersTable w)) ->
  saveEntity u' false w = (Ok u', overwrite w u').
Proof.
  intros He Hn. unfold saveEntity.
  now rewrite (proj2 (uniqueViolation_None _ _) (conj He Hn)).
Qed.
(** A stored row saved with its unique columns unchanged, in a world that
    satisfies the invariant. *)
Lemma saveEntity_same_keys w id u u' :
  wf_world w -> storedUser w id = Some u ->
  user_id u' = user_id u -> user_email u' = user_email u ->
  user_username u' = user_username u ->
  saveEntity u' false w = (Ok u', overwrite w u')
  /\ storedUser (overwrite w u') id = Some u'.
Proof.
  intros Hwf Hu Hid He Hn. apply storedUser_Some in Hu as Hu'.
  destruct Hu' as [Hin Hidu]. split.
  - apply saveEntity_update_run.
    + rewrite He. now apply wf_email_others.
    + rewrite Hn. now apply wf_username_others.
  - rewrite (storedUser_replaceRow w u) by (rewrite Hid, Hidu; exact Hu).
    rewrite decide_True by congruence. reflexivity.
Qed.

(** ** The invariant of the storage is kept by the service *)

Lemma keeps_wf_ret {A} (a : A) : keeps_wf (mret a).
Proof. intros w r w' Hwf [= _ <-]. exact Hwf. Qed.

Lemma keeps_wf_throw {A} (e : Exception) : keeps_wf (mthrow e : M A).
Proof. intros w r w' Hwf [= _ <-]. exact Hwf. Qed.

Lemma keeps_wf_bind {A B} (m : M A) (f : A -> M B) :
  keeps_wf m -> (forall a, keeps_wf (f a)) -> keeps_wf (m ≫= f).
Proof.
  intros Hm Hf w r w' Hwf. unfold mbind, M_bind.
  destruct (m w) as [[a|e] w1] eqn:Hrun.
  - apply Hf. eapply Hm; eauto.
  - intros [= _ <-]. eapply Hm; eauto.
Qed.

Lemma keeps_wf_read {A} (f : World -> A) : keeps_wf (fun w => (Ok (f w), w)).
Proof. intros w r w' Hwf [= _ <-]. exact Hwf. Qed.

Lemma replaceRow_ids u' t : user_id <$> replaceRow u' t = user_id <$> t.
Proof.
  unfold replaceRow. induction t as [|r t IH]; [reflexivity|].
  rewrite !fmap_cons, IH.
  destruct (decide (user_id r = user_id u')); congruence.
Qed.

Lemma replaceRow_absent u' t :
  user_id u' ∉ (user_id <$> t) -> replaceRow u' t = t /\ otherRows u' t = t.
Proof.
  unfold replaceRow, otherRows. induction t as [|r t IH]; [done|].
  rewrite fmap_cons, not_elem_of_cons. intros [Hne Hnot].
  destruct (IH Hnot) as [IH1 IH2].
  rewrite !fmap_cons, filter_cons, IH1, IH2.
  rewrite decide_False, decide_True by congruence. done.
Qed.

Lemma elem_of_replaceRow u' t r :
  r ∈ replaceRow u' t -> r = u' \/ (r ∈ otherRows u' t).
Proof.
  unfold replaceRow. intros Hin.
  apply list_elem_of_fmap in Hin as (x & -> & Hx).
  destruct (decide (user_id x = user_id u')); [now left|right].
  now apply elem_of_otherRows.
Qed.

(** A column stays free of duplicates when a row is overwritten by one whose
    value no other row has. *)
Lemma replaceRow_NoDup {B} (f : UserEntity -> B) u' t :
  NoDup (user_id <$> t) -> NoDup (f <$> t) ->
  f u' ∉ (f <$> otherRows u' t) -> NoDup (f <$> replaceRow u' t).
Proof.
  induction t as [|r t IH]; intros Hids Hcol Hfree; [constructor|].
  rewrite fmap_cons in Hids. rewrite fmap_cons in Hcol.
  apply NoDup_cons in Hids as [Hid Hids]. apply NoDup_cons in Hcol as [Hr Hcol].
  unfold replaceRow, otherRows in *. rewrite fmap_cons, filter_cons in *.
  fold (replaceRow u' t) in *. fold (otherRows u' t) in *.
  destruct (decide (user_id r = user_id u')) as [Heq|Hne].
  - rewrite decide_False in Hfree by tauto. rewrite Heq in Hid.
    destruct (replaceRow_absent u' t Hid) as [-> Hother].
    rewrite Hother in Hfree. rewrite fmap_cons. now apply NoDup_cons.
  - rewrite decide_True in Hfree by exact Hne.
    rewrite fmap_cons, not_elem_of_cons in Hfree. destruct Hfree as [Hru Hfree].
    rewrite fmap_cons. apply NoDup_cons. split; [|now apply IH].
    intros Hin. apply list_elem_of_fmap in Hin as (x & Hx & Hin).
    apply elem_of_replaceRow in Hin as [->|Hin]; [congruence|].
    apply Hr. rewrite Hx. apply list_elem_of_fmap_2.
    now apply elem_of_otherRows in Hin as [_ Hin].
Qed.

Lemma saveEntity_keeps_wf user isNew : keeps_wf (saveEntity user isNew).
Proof.
  intros w r w' Hwf. pose proof Hwf as (Hids & Hemails & Hnames & Hlt).
  unfold saveEntity. destruct isNew.
  - destruct (uniqueViolation (usersTable w) (set_id user (nextId w)))
      eqn:Hv; intros [= _ <-]; [exact Hwf|].
    apply uniqueViolation_None in Hv as [He Hn].
    unfold wf_world. cbn [usersTable nextId]. rewrite !fmap_app.
    cbn [fmap list_fmap]. split; [|split; [|split]].
    + apply NoDup_app. split; [exact Hids|]. split; [|apply NoDup_singleton].
      intros i Hi Hi'. apply list_elem_of_singleton in Hi'. subst i.
      apply list_elem_of_fmap in Hi as (x & Hx & Hin).
      rewrite Forall_forall in Hlt. specialize (Hlt x Hin). cbn in Hx. lia.
    + apply NoDup_app. split; [exact Hemails|]. split; [|apply NoDup_singleton].
      intros e Hin Hin'. apply list_elem_of_singleton in Hin'. now subst e.
    + apply NoDup_app. split; [exact Hnames|]. split; [|apply NoDup_singleton].
      intros n Hin Hin'. apply list_elem_of_singleton in Hin'. now subst n.
    + apply Forall_app. split.
      * eapply Forall_impl; [exact Hlt|]. cbn. lia.
      * apply Forall_singleton. cbn. lia.
  - destruct (uniqueViolation (otherRows user (usersTable w)) user) eqn:Hv;
      intros [= _ <-]; [exact Hwf|].
    apply uniqueViolation_None in Hv as [He Hn].
    unfold wf_world, set_usersTable. cbn [usersTable nextId].
    split; [|split; [|split]].
    + now rewrite replaceRow_ids.
    + now apply replaceRow_NoDup.
    + now apply replaceRow_NoDup.
    + apply Forall_forall. intros x Hx.
      assert (Hid : user_id x ∈ (user_id <$> replaceRow user (usersTable w)))
        by now apply list_elem_of_fmap_2.
      rewrite replaceRow_ids in Hid.
      apply list_elem_of_fmap in Hid as (y & -> & Hy).
      rewrite Forall_forall in Hlt. now apply Hlt.
Qed.
Lemma removeEntity_keeps_wf user : keeps_wf (removeEntity user).
Proof.
  intros w r w' (Hids & Hemails & Hnames & Hlt) [= _ <-].
  unfold wf_world, set_usersTable. cbn [usersTable nextId].
  assert (Hsub : otherRows user (usersTable w) `sublist_of` usersTable w)
    by apply sublist_filter.
  split; [|split; [|split]].
  - eapply sublist_NoDup; [exact Hids|]. now apply fmap_sublist.
  - eapply sublist_NoDup; [exact Hemails|]. now apply fmap_sublist.
  - eapply sublist_NoDup; [exact Hnames|]. now apply fmap_sublist.
  - rewrite Forall_forall in *. intros x Hx. apply Hlt.
    now apply elem_of_otherRows in Hx as [_ Hx].
Qed.

Lemma repo_findOne_keeps_wf (P : UserEntity -> Prop)
    `{!forall u, Decision (P u)} : keeps_wf (repo_findOne P).
Proof. intros w r w' Hwf [= _ <-]. exact Hwf. Qed.

Lemma repo_count_keeps_wf (P : UserEntity -> Prop)
    `{!forall u, Decision (P u)} : keeps_wf (repo_count P).
Proof. intros w r w' Hwf [= _ <-]. exact Hwf. Qed.

Lemma cache_get_keeps_wf key : keeps_wf (cache_get key).
Proof. intros w r w' Hwf [= _ <-]. exact Hwf. Qed.

Ltac keeps_wf_step :=
  first
    [ apply keeps_wf_ret
    | apply keeps_wf_throw
    | apply saveEntity_keeps_wf
    | apply removeEntity_keeps_wf
    | apply repo_findOne_keeps_wf
    | apply repo_count_keeps_wf
    | apply cache_get_keeps_wf
    | apply keeps_wf_bind; [|intros ?]
    | match goal with
      | |- keeps_wf (if ?b then _ else _) => destruct b
      | |- keeps_wf (match ?x with _ => _ end) => destruct x
      end ].

Lemma findOneById_keeps_wf id : keeps_wf (findOneById id).
Proof. unfold findOneById, checkEntityExistence. repeat keeps_wf_step. Qed.

Lemma findOneByCredentials_keeps_wf id version :
  keeps_wf (findOneByCredentials id version).
Proof.
  unfold findOneByCredentials, throwUnauthorizedException.
  repeat keeps_wf_step.
Qed.

(** Every operation of the service leaves a store that satisfies the
    invariant in one that satisfies it, whether it returns or throws. *)
Lemma service_keeps_wf :
  (forall email name provider password salt,
      keeps_wf (create email name provider password salt))
  /\ (forall id version, keeps_wf (confirmEmail id version))
  /\ (forall id password newPassword salt,
        keeps_wf (updatePassword id password newPassword salt))
  /\ (forall id version password salt,
        keeps_wf (resetPassword id version password salt))
  /\ (forall id dto, keeps_wf (updateEmail id dto))
  /\ (forall id password, keeps_wf (delete id password))
  /\ (forall id name, keeps_wf (updateName id name))
  /\ (forall id status, keeps_wf (updateOnlineStatus id status)).
Proof.
  repeat match goal with |- _ /\ _ => split end; intros.
  - unfold create, checkEmailUniqueness, generateUsername. cbv zeta.
    repeat keeps_wf_step.
  - unfold confirmEmail.
    apply keeps_wf_bind; [apply findOneByCredentials_keeps_wf|intros ?].
    repeat keeps_wf_step.
  - unfold updatePassword.
    apply keeps_wf_bind; [apply findOneById_keeps_wf|intros ?].
    repeat keeps_wf_step.
  - unfold resetPassword.
    apply keeps_wf_bind; [apply findOneByCredentials_keeps_wf|intros ?].
    repeat keeps_wf_step.
  - unfold updateEmail, checkEmailUniqueness.
    apply keeps_wf_bind; [apply findOneById_keeps_wf|intros ?].
    repeat keeps_wf_step.
  - unfold delete.
    apply keeps_wf_bind; [apply findOneById_keeps_wf|intros ?].
    repeat keeps_wf_step.
  - unfold updateName, generateUsername.
    apply keeps_wf_bind; [apply findOneById_keeps_wf|intros ?].
    repeat keeps_wf_step.
  - unfold updateOnlineStatus.
    apply keeps_wf_bind; [apply findOneById_keeps_wf|intros ?].
    repeat keeps_wf_step.
Qed.
(** ** Credentials *)

(** C1. For a stored user with credentials version [cv] and any supplied
    version [v], [findOneByCredentials(id, v)] returns the user iff
    [v = cv]; if [v <> cv], or if no user has that id, it fails with the
    unauthorized error "Invalid credentials". The world is not touched. *)
Theorem findOneByCredentials_iff_version w id version :
  (forall u, storedUser w id = Some u ->
     (findOneByCredentials id version w = (Ok u, w)
      <-> version = cred_version (user_credentials u))
     /\ (version <> cred_version (user_credentials u) ->
         findOneByCredentials id version w
         = (Throw (UnauthorizedException "Invalid credentials"), w)))
  /\ (storedUser w id = None ->
      findOneByCredentials id version w
      = (Throw (UnauthorizedException "Invalid credentials"), w)).
Proof.
  rewrite findOneByCredentials_run. split.
  - intros u ->.
    destruct (Z.eqb_spec (cred_version (user_credentials u)) version)
      as [Heq|Hne].
    + split; [split; [congruence|reflexivity]|congruence].
    + split; [split; [discriminate|congruence]|reflexivity].
  - now intros ->.
Qed.

(** C2. For an existing user, [updatePassword(id, old, new)] succeeds iff
    [old] matches the stored hash and [new] does not; on success the
    credentials version grows by exactly 1, the old hash is archived in
    the credentials and the stored hash is a hash of [new]; otherwise it
    fails with a bad-request error, "Wrong password" when [old] does not
    match and "New password must be different" when [new] matches. *)
Theorem updatePassword_succeeds_iff w id old new salt u :
  wf_world w -> storedUser w id = Some u ->
  let stored := user_password u in
  let u' := withPassword u (hash new 10 salt) in
  ((exists r w', updatePassword id old new salt w = (Ok r, w'))
   <-> compare old stored = true /\ compare new stored = false)
  /\ (compare old stored = true -> compare new stored = false ->
      updatePassword id old new salt w = (Ok u', overwrite w u')
      /\ storedUser (overwrite w u') id = Some u'
      /\ cred_version (user_credentials u')
         = (cred_version (user_credentials u) + 1)%Z
      /\ cred_lastPassword (user_credentials u') = stored
      /\ user_password u' = hash new 10 salt)
  /\ (compare old stored = false ->
      updatePassword id old new salt w
      = (Throw (BadRequestException "Wrong password"), w))
  /\ (compare old stored = true -> compare new stored = true ->
      updatePassword id old new salt w
      = (Throw (BadRequestException "New password must be different"), w)).
Proof.
  intros Hwf Hu stored u'.
  assert (Hrun : updatePassword id old new salt w
    = if negb (compare old stored)
      then (Throw (BadRequestException "Wrong password"), w)
      else if compare new stored
      then (Throw (BadRequestException "New password must be different"), w)
      else saveEntity u' false w).
  { unfold updatePassword, mbind, M_bind. rewrite findOneById_run, Hu.
    subst stored. destruct (compare old (user_password u)); cbn; [|done].
    now destruct (compare new (user_password u)). }
  destruct (saveEntity_same_keys w id u u' Hwf Hu eq_refl eq_refl eq_refl)
    as [Hsave Hread].
  rewrite Hrun. split; [split|split; [|split]].
  - intros (r & w' & Hok).
    destruct (compare old stored), (compare new stored); cbn in Hok;
      (discriminate || auto).
  - intros [-> ->]. cbn [negb]. rewrite Hsave. eauto.
  - intros -> ->. cbn [negb]. rewrite Hsave. auto.
  - intros ->. reflexivity.
  - intros -> ->. reflexivity.
Qed.

(** C9. [resetPassword(id, version, new)], unlike [updatePassword], does
    not ask the new password to differ from the current one: for every
    user whose credentials version is the supplied one it succeeds, for
    every new password, archiving the old hash and adding 1 to the
    version, also when [new] matches the current hash, the case that
    [updatePassword] refuses. *)
Theorem resetPassword_same_password_allowed w id version new salt u :
  wf_world w -> storedUser w id = Some u ->
  cred_version (user_credentials u) = version ->
  let u' := withPassword u (hash new 10 salt) in
  resetPassword id version new salt w = (Ok u', overwrite w u')
  /\ storedUser (overwrite w u') id = Some u'
  /\ cred_version (user_credentials u') = (version + 1)%Z
  /\ cred_lastPassword (user_credentials u') = user_password u
  /\ user_password u' = hash new 10 salt
  /\ (compare new (user_password u) = true ->
      updatePassword id new new salt w
      = (Throw (BadRequestException "New password must be different"), w)).
Proof.
  intros Hwf Hu Hv u'.
  destruct (saveEntity_same_keys w id u u' Hwf Hu eq_refl eq_refl eq_refl)
    as [Hsave Hread].
  repeat split.
  - unfold resetPassword, mbind, M_bind.
    rewrite findOneByCredentials_run, Hu, Hv, Z.eqb_refl. exact Hsave.
  - exact Hread.
  - cbn. now rewrite Hv.
  - intros Hsame. unfold updatePassword, mbind, M_bind.
    rewrite findOneById_run, Hu, Hsame. reflexivity.
Qed.
(** C5, as amended. After a successful [confirmEmail(id, v)] the account
    is confirmed and its credentials are at version [v + 1], and every
    further [confirmEmail] on it fails: with the unauthorized error
    "Invalid credentials" when it carries the version [v] of the first call
    or any version other than [v + 1], and with the bad-request error
    "Email already confirmed" when it carries [v + 1]. *)
Theorem confirmEmail_second_call w id version u w' :
  confirmEmail id version w = (Ok u, w') ->
  user_confirmed u = true
  /\ cred_version (user_credentials u) = (version + 1)%Z
  /\ storedUser w' id = Some u
  /\ confirmEmail id version w'
     = (Throw (UnauthorizedException "Invalid credentials"), w')
  /\ (forall v', v' <> (version + 1)%Z ->
      confirmEmail id v' w'
      = (Throw (UnauthorizedException "Invalid credentials"), w'))
  /\ confirmEmail id (version + 1) w'
     = (Throw (BadRequestException "Email already confirmed"), w').
Proof.
  unfold confirmEmail at 1. unfold mbind, M_bind.
  rewrite findOneByCredentials_run.
  destruct (storedUser w id) as [u0|] eqn:Hu0; [|discriminate].
  destruct (Z.eqb_spec (cred_version (user_credentials u0)) version)
    as [Hv|]; [|discriminate].
  destruct (user_confirmed u0) eqn:Hc; [discriminate|].
  unfold saveEntity.
  match goal with
  | |- context [uniqueViolation ?t ?x] => destruct (uniqueViolation t x)
  end; [discriminate|].
  intros [= <- <-].
  match goal with
  | |- context [set_usersTable w (replaceRow ?x _)] => set (u1 := x)
  end.
  fold (overwrite w u1).
  assert (Hid : user_id u1 = id) by (now apply storedUser_Some in Hu0).
  assert (Hread : storedUser (overwrite w u1) id = Some u1).
  { rewrite (storedUser_replaceRow w u0) by (now rewrite Hid).
    now rewrite decide_True. }
  assert (Hver : cred_version (user_credentials u1) = (version + 1)%Z)
    by (cbn; now rewrite Hv).
  assert (Hstale : forall v', v' <> (version + 1)%Z ->
    confirmEmail id v' (overwrite w u1)
    = (Throw (UnauthorizedException "Invalid credentials"), overwrite w u1)).
  { intros v' Hne. unfold confirmEmail, mbind, M_bind.
    rewrite findOneByCredentials_run, Hread, Hver.
    destruct (Z.eqb_spec (version + 1) v'); [congruence|reflexivity]. }
  split; [reflexivity|]. split; [exact Hver|]. split; [exact Hread|].
  split; [apply Hstale; lia|]. split; [exact Hstale|].
  unfold confirmEmail, mbind, M_bind.
  rewrite findOneByCredentials_run, Hread, Hver, Z.eqb_refl. reflexivity.
Qed.

(** ** Email *)

Lemma generateUsername_run w name :
  generateUsername name w
  = (Ok (numberedSlug (generatePointSlug name)
           (likeCount (generatePointSlug name) (usersTable w))), w).
Proof.
  unfold generateUsername, mbind, M_bind, repo_count, numberedSlug.
  fold (likeCount (generatePointSlug name) (usersTable w)).
  now destruct (0 <? likeCount (generatePointSlug name) (usersTable w))%nat.
Qed.

Lemma create_run w email name provider password salt :
  create email name provider password salt w
  = if decide (toLowerCase email ∈ (user_email <$> usersTable w))
    then (Throw (ConflictException "Email already in use"), w)
    else
      saveEntity
        (repo_create (toLowerCase email) (formatTitle name)
           (numberedSlug (generatePointSlug (formatTitle name))
              (likeCount (generatePointSlug (formatTitle name))
                 (usersTable w)))
           [provider]
           (match password with
            | None => "UNSET"
            | Some password => hash password 10 salt
            end))
        true w.
Proof.
  unfold create. unfold mbind at 1. unfold M_bind at 1.
  rewrite checkEmailUniqueness_run.
  destruct (decide (toLowerCase email ∈ (user_email <$> usersTable w)));
    [reflexivity|].
  unfold mbind, M_bind. now rewrite generateUsername_run.
Qed.

(** What a successful [create] leaves: the new row, under the next id, at
    the end of the table. *)
Lemma create_Ok w email name provider password salt u w' :
  create email name provider password salt w = (Ok u, w') ->
  u = set_id
        (repo_create (toLowerCase email) (formatTitle name)
           (numberedSlug (generatePointSlug (formatTitle name))
              (likeCount (generatePointSlug (formatTitle name))
                 (usersTable w)))
           [provider]
           (match password with
            | None => "UNSET"
            | Some password => hash password 10 salt
            end))
        (nextId w)
  /\ w' = {| usersTable := usersTable w ++ [u];
             nextId := S (nextId w);
             cacheStore := cacheStore w |}
  /\ uniqueViolation (usersTable w) u = None.
Proof.
  rewrite create_run.
  destruct (decide (toLowerCase email ∈ (user_email <$> usersTable w)));
    [discriminate|].
  unfold saveEntity.
  match goal with
  | |- context [uniqueViolation ?t ?x] =>
      destruct (uniqueViolation t x) eqn:Hv
  end; [discriminate|].
  intros [= <- <-]. auto.
Qed.

(** A failed call leaves the world as it was. *)
Lemma create_Throw w email name provider password salt e w' :
  create email name provider password salt w = (Throw e, w') -> w' = w.
Proof.
  rewrite create_run.
  destruct (decide (toLowerCase email ∈ (user_email <$> usersTable w)));
    [now intros [= _ <-]|].
  unfold saveEntity.
  match goal with
  | |- context [uniqueViolation ?t ?x] => destruct (uniqueViolation t x)
  end; [now intros [= _ <-]|discriminate].
Qed.

(** C4. [create] lower-cases the email before the uniqueness check and
    before storing it: it fails with the conflict error "Email already in
    use" when the lower-cased email is stored already, and the user it
    creates holds the lower-cased email; after that, every [create] whose
    email has the same lower-case form, whatever its case, fails with that
    conflict error and leaves the world, and so the existing user,
    unchanged. *)
Theorem create_email_conflict w email name provider password salt :
  let formattedEmail := toLowerCase email in
  (formattedEmail ∈ (user_email <$> usersTable w) ->
   create email name provider password salt w
   = (Throw (ConflictException "Email already in use"), w))
  /\ (forall u w',
        create email name provider password salt w = (Ok u, w') ->
        user_email u = formattedEmail
        /\ usersTable w' = (usersTable w ++ [u])%list
        /\ forall email2 name2 provider2 password2 salt2,
             toLowerCase email2 = formattedEmail ->
             create email2 name2 provider2 password2 salt2 w'
             = (Throw (ConflictException "Email already in use"), w')).
Proof.
  intros formattedEmail. split.
  - intros Hin. rewrite create_run. now rewrite decide_True.
  - intros u w' Hok. apply create_Ok in Hok as (Hu & Hw' & _).
    assert (He : user_email u = formattedEmail) by now rewrite Hu.
    assert (Ht : usersTable w' = (usersTable w ++ [u])%list) by now rewrite Hw'.
    split; [exact He|]. split; [exact Ht|].
    intros email2 name2 provider2 password2 salt2 Hsame.
    rewrite create_run, decide_True; [reflexivity|].
    rewrite Hsame, Ht, fmap_app, elem_of_app. right.
    rewrite <- He. apply list_elem_of_fmap_2, list_elem_of_singleton.
    reflexivity.
Qed.
(** C6. For an existing user, [updateEmail(id, {email, password})] fails
    with a bad-request error when the password does not match the stored
    hash; otherwise with a bad-request error when the lower-cased new
    email is the stored one; otherwise with a conflict error when another
    account holds the new email; otherwise it stores the lower-cased email
    and succeeds. The checks are made in that order. *)
Theorem updateEmail_checks_in_order w id dto u :
  wf_world w -> storedUser w id = Some u ->
  let formattedEmail := toLowerCase (dto_email dto) in
  let matches := compare (dto_password dto) (user_password u) in
  let taken :=
    exists r, (r ∈ usersTable w) /\ user_id r <> id
              /\ user_email r = formattedEmail in
  let u' := set_email u formattedEmail in
  (matches = false ->
   updateEmail id dto w = (Throw (BadRequestException "Wrong password"), w))
  /\ (matches = true -> user_email u = formattedEmail ->
      updateEmail id dto w
      = (Throw (BadRequestException "Email should be different"), w))
  /\ (matches = true -> user_email u <> formattedEmail -> taken ->
      updateEmail id dto w
      = (Throw (ConflictException "Email already in use"), w))
  /\ (matches = true -> user_email u <> formattedEmail -> ~ taken ->
      updateEmail id dto w = (Ok u', overwrite w u')
      /\ storedUser (overwrite w u') id = Some u'
      /\ user_email u' = formattedEmail).
Proof.
  intros Hwf Hu formattedEmail matches taken u'.
  apply storedUser_Some in Hu as Hu'. destruct Hu' as [Hin Hid].
  assert (Hrun : updateEmail id dto w
    = if negb matches
      then (Throw (BadRequestException "Wrong password"), w)
      else if bool_decide (user_email u = formattedEmail)
      then (Throw (BadRequestException "Email should be different"), w)
      else if decide (formattedEmail ∈ (user_email <$> usersTable w))
      then (Throw (ConflictException "Email already in use"), w)
      else saveEntity u' false w).
  { unfold updateEmail. unfold mbind at 1. unfold M_bind at 1.
    rewrite findOneById_run, Hu. fold formattedEmail matches.
    destruct matches; cbn [negb]; [|reflexivity].
    destruct (bool_decide (user_email u = formattedEmail)); [reflexivity|].
    unfold mbind, M_bind. rewrite checkEmailUniqueness_run.
    now destruct (decide (formattedEmail ∈ (user_email <$> usersTable w))). }
  rewrite Hrun. split; [|split; [|split]].
  - now intros ->.
  - intros -> He. cbn [negb]. now rewrite bool_decide_eq_true_2.
  - intros -> Hne (r & Hr & _ & He). cbn [negb].
    rewrite bool_decide_eq_false_2 by exact Hne.
    rewrite decide_True; [reflexivity|].
    rewrite <- He. now apply list_elem_of_fmap_2.
  - intros -> Hne Hfree. cbn [negb].
    rewrite bool_decide_eq_false_2 by exact Hne.
    assert (Hnot : formattedEmail ∉ (user_email <$> usersTable w)).
    { intros Hmem. apply list_elem_of_fmap in Hmem as (r & He & Hr).
      apply Hfree. exists r. split; [exact Hr|]. split; [|now symmetry].
      intros Hidr. apply Hne. rewrite He. f_equal.
      destruct Hwf as (Hids & _).
      apply (NoDup_fmap_elem user_id (usersTable w)); auto. congruence. }
    rewrite decide_False by exact Hnot.
    assert (Hsave : saveEntity u' false w = (Ok u', overwrite w u')).
    { apply saveEntity_update_run.
      - intros Hmem. apply Hnot.
        apply list_elem_of_fmap in Hmem as (r & He & Hr).
        apply elem_of_otherRows in Hr as [_ Hr].
        change (user_email u') with formattedEmail in He.
        rewrite He. now apply list_elem_of_fmap_2.
      - change (user_username u') with (user_username u).
        now apply wf_username_others. }
    split; [exact Hsave|]. split; [|reflexivity].
    rewrite (storedUser_replaceRow w u) by (cbn; now rewrite Hid).
    rewrite decide_True; [reflexivity|]. cbn. now rewrite Hid.
Qed.

(** ** Online status *)

(** C7. For an existing user, [updateOnlineStatus(id, status)] always
    stores [status] in the default-status column, and stores it in the
    online-status column only when the cache has an entry under the key
    ["sessions:<id>"]; without such an entry the online-status column
    keeps its value. *)
Theorem updateOnlineStatus_session_gate w id status u :
  wf_world w -> storedUser w id = Some u ->
  let session := cacheStore w !! ("sessions:" +:+ pretty id) in
  let u' :=
    match session with
    | Some _ => set_onlineStatus (set_defaultStatus u status) status
    | None => set_defaultStatus u status
    end in
  updateOnlineStatus id status w = (Ok u', overwrite w u')
  /\ storedUser (overwrite w u') id = Some u'
  /\ user_defaultStatus u' = status
  /\ (is_Some session -> user_onlineStatus u' = status)
  /\ (session = None -> user_onlineStatus u' = user_onlineStatus u).
Proof.
  intros Hwf Hu session u'.
  assert (Hkeys : user_id u' = user_id u /\ user_email u' = user_email u
                  /\ user_username u' = user_username u).
  { subst u'. now destruct session. }
  destruct Hkeys as (Hid & He & Hn).
  destruct (saveEntity_same_keys w id u u' Hwf Hu Hid He Hn)
    as [Hsave Hread].
  split; [|split; [exact Hread|split; [|split]]].
  - unfold updateOnlineStatus, mbind, M_bind, cache_get.
    rewrite findOneById_run, Hu. fold session. exact Hsave.
  - subst u'. now destruct session.
  - intros [d Hd]. subst u'. now rewrite Hd.
  - intros Hd. subst u'. now rewrite Hd.
Qed.

(** ** Names *)

(** C10. [updateName(id, name)] changes exactly two columns of the user:
    the display name becomes the formatted name and the username becomes
    the one generated anew from it (the point slug, followed by the count
    of stored usernames that start with the slug when there are any); the
    other columns, the credentials version among them, and the other rows
    keep their values. The call either stores that row or, when the
    storage finds the generated username in another row, fails and writes
    nothing; it stores it whenever no other row holds that username. *)
Theorem updateName_changes_name_and_username w id name u :
  storedUser w id = Some u ->
  let formatName := formatTitle name in
  let pointSlug := generatePointSlug formatName in
  let username :=
    numberedSlug pointSlug (likeCount pointSlug (usersTable w)) in
  let u' := set_username (set_name u formatName) username in
  (updateName id name w = (Ok u', overwrite w u')
   \/ exists column,
       updateName id name w = (Throw (UniqueConstraintViolation column), w))
  /\ (wf_world w ->
      username ∉ (user_username <$> otherRows u (usersTable w)) ->
      updateName id name w = (Ok u', overwrite w u'))
  /\ storedUser (overwrite w u') id = Some u'
  /\ (forall j, j <> id -> storedUser (overwrite w u') j = storedUser w j)
  /\ user_name u' = formatName
  /\ user_username u' = username
  /\ user_id u' = user_id u
  /\ user_email u' = user_email u
  /\ user_picture u' = user_picture u
  /\ user_password u' = user_password u
  /\ user_confirmed u' = user_confirmed u
  /\ user_onlineStatus u' = user_onlineStatus u
  /\ user_defaultStatus u' = user_defaultStatus u
  /\ user_credentials u' = user_credentials u
  /\ user_authProviders u' = user_authProviders u.
Proof.
  intros Hu formatName pointSlug username u'.
  apply storedUser_Some in Hu as Hu'. destruct Hu' as [Hin Hid].
  assert (Hrun : updateName id name w = saveEntity u' false w).
  { unfold updateName. unfold mbind at 1. unfold M_bind at 1.
    rewrite findOneById_run, Hu. unfold mbind, M_bind.
    now rewrite generateUsername_run. }
  assert (Hidu : user_id u' = id) by exact Hid.
  split; [|split; [|split; [|split]]].
  - rewrite Hrun. unfold saveEntity. fold (overwrite w u').
    destruct (uniqueViolation (otherRows u' (usersTable w)) u')
      as [column|]; [right; now exists column|now left].
  - intros Hwf Hfree. rewrite Hrun. apply saveEntity_update_run.
    + now apply (wf_email_others w u u').
    + exact Hfree.
  - rewrite (storedUser_replaceRow w u) by (now rewrite Hidu).
    now rewrite decide_True.
  - intros j Hj. rewrite (storedUser_replaceRow w u) by (now rewrite Hidu).
    now rewrite decide_False by congruence.
  - repeat split.
Qed.
(** ** Accounts without a password *)

(** The row appended under the next id of the sequence is the one read
    back under that id. *)
Lemma find_appended t u :
  Forall (fun r => user_id r < user_id u) t ->
  List.find (fun r => bool_decide (user_id r = user_id u)) (t ++ [u])
  = Some u.
Proof.
  induction 1 as [|r t Hr _ IH]; cbn.
  - now rewrite bool_decide_eq_true_2.
  - rewrite bool_decide_eq_false_2 by lia. exact IH.
Qed.

Lemma create_stored w email name provider password salt u w' :
  wf_world w ->
  create email name provider password salt w = (Ok u, w') ->
  storedUser w' (user_id u) = Some u.
Proof.
  intros (_ & _ & _ & Hlt) Hok. apply create_Ok in Hok as (Hu & -> & _).
  unfold storedUser. cbn. apply find_appended.
  replace (user_id u) with (nextId w) by now rewrite Hu.
  exact Hlt.
Qed.

Section UnsetPassword.
(** [bcrypt.compare] answers [false] when the second argument is not a
    hash that [bcrypt] made, as the sentinel. *)
Hypothesis compare_unset : forall data, compare data "UNSET" = false.

(** C8. A user created without a password is stored with the sentinel
    "UNSET" as its password, and for a user whose stored password is the
    sentinel each password-gated operation, [updatePassword],
    [updateEmail] and [delete], fails with the bad-request error "Wrong
    password" for every supplied password, and leaves the world as it
    is: the account can neither be deleted nor change its email through
    them. *)
Theorem unset_password_blocks_gated_operations :
  (forall w email name provider salt u w',
      wf_world w ->
      create email name provider None salt w = (Ok u, w') ->
      user_password u = "UNSET" /\ storedUser w' (user_id u) = Some u)
  /\ (forall w id u password,
        storedUser w id = Some u -> user_password u = "UNSET" ->
        (forall newPassword salt,
            updatePassword id password newPassword salt w
            = (Throw (BadRequestException "Wrong password"), w))
        /\ (forall email,
              updateEmail id
                {| dto_email := email; dto_password := password |} w
              = (Throw (BadRequestException "Wrong password"), w))
        /\ delete id password w
           = (Throw (BadRequestException "Wrong password"), w)).
Proof.
  split.
  - intros w email name provider salt u w' Hwf Hok. split.
    + apply create_Ok in Hok as (-> & _). reflexivity.
    + eapply create_stored; eauto.
  - intros w id u password Hu Hpw. split; [|split].
    + intros newPassword salt. unfold updatePassword, mbind, M_bind.
      now rewrite findOneById_run, Hu, Hpw, compare_unset.
    + intros email. unfold updateEmail, mbind, M_bind.
      rewrite findOneById_run, Hu. cbn [dto_password].
      now rewrite Hpw, compare_unset.
    + unfold delete, mbind, M_bind.
      now rewrite findOneById_run, Hu, Hpw, compare_unset.
Qed.
End UnsetPassword.
(** ** Usernames *)

Lemma likeCount_startingWith slug t :
  like_plain slug = true -> likeCount slug t = length (startingWith slug t).
Proof.
  intros Hplain. unfold likeCount, startingWith. rewrite length_fmap.
  f_equal. apply list_filter_iff. intros u.
  rewrite sql_like_prefix by exact Hplain. apply Is_true_true.
Qed.

Lemma numberedSlug_prefix slug count :
  String.prefix slug (numberedSlug slug count) = true.
Proof.
  unfold numberedSlug. destruct (0 <? count)%nat; [apply prefix_app|].
  rewrite <- (string_app_nil_r slug) at 2. apply prefix_app.
Qed.

Lemma numberedSlug_unrelated slug other count :
  unrelated slug other ->
  String.prefix slug (numberedSlug other count) = false.
Proof.
  intros [Hst Hts]. unfold numberedSlug.
  destruct (0 <? count)%nat; [|exact Hst].
  destruct (String.prefix slug (other +:+ pretty count)) eqn:Hp;
    [|reflexivity].
  apply prefix_app_cases in Hp as [Hp|Hp]; congruence.
Qed.

(** Different counts give different usernames. *)
Lemma numberedSlug_inj slug : Inj (=) (=) (numberedSlug slug).
Proof.
  intros m n. unfold numberedSlug.
  destruct (Nat.ltb_spec 0 m) as [Hm|Hm], (Nat.ltb_spec 0 n) as [Hn|Hn];
    intros Heq.
  - apply (inj (String.app slug)) in Heq. now apply (inj pretty) in Heq.
  - apply string_app_eq_self in Heq. now apply pretty_nat_nonempty in Heq.
  - symmetry in Heq. apply string_app_eq_self in Heq.
    now apply pretty_nat_nonempty in Heq.
  - lia.
Qed.

Lemma startingWith_app slug t u :
  startingWith slug (t ++ [u])
  = (startingWith slug t
     ++ if String.prefix slug (user_username u)
        then [user_username u] else [])%list.
Proof.
  unfold startingWith. rewrite filter_app, fmap_app. f_equal.
  rewrite filter_cons, filter_nil.
  destruct (String.prefix slug (user_username u)) eqn:Hp.
  - now rewrite decide_True.
  - rewrite decide_False; [reflexivity|congruence].
Qed.

(** [create] keeps the invariant of the storage. *)
Lemma create_wf w email name provider password salt u w' :
  wf_world w ->
  create email name provider password salt w = (Ok u, w') ->
  wf_world w'.
Proof.
  intros Hwf Hok.
  exact (proj1 service_keeps_wf email name provider password salt w (Ok u) w'
           Hwf Hok).
Qed.

(** A run of [create] appends the users it created to the table and keeps
    the invariant. *)
Lemma createAll_table calls w :
  wf_world w ->
  wf_world (createAll calls w).2
  /\ usersTable (createAll calls w).2
     = (usersTable w ++ created (createAll calls w).1)%list.
Proof.
  revert w. induction calls as [|c calls IH]; intros w Hwf; cbn.
  - split; [exact Hwf|]. now rewrite app_nil_r.
  - destruct (runCreate c w) as [[u|e] w1] eqn:Hrun;
      unfold runCreate in Hrun.
    + pose proof (create_wf _ _ _ _ _ _ _ _ Hwf Hrun) as Hwf1.
      apply create_Ok in Hrun as (_ & Hw1 & _).
      destruct (IH w1 Hwf1) as [Hwf2 Htab].
      destruct (createAll calls w1) as [rs w2]. cbn in *.
      split; [exact Hwf2|]. rewrite Htab, Hw1. cbn.
      now rewrite <- app_assoc.
    + apply create_Throw in Hrun. subst w1.
      destruct (IH w Hwf) as [Hwf2 Htab].
      destruct (createAll calls w) as [rs w2]. cbn in *. auto.
Qed.
Lemma createAll_app calls1 calls2 w :
  createAll (calls1 ++ calls2) w
  = ((createAll calls1 w).1
     ++ (createAll calls2 (createAll calls1 w).2).1,
     (createAll calls2 (createAll calls1 w).2).2)%list.
Proof.
  revert w. induction calls1 as [|c calls1 IH]; intros w; cbn.
  - now destruct (createAll calls2 w).
  - destruct (runCreate c w) as [r w1]. rewrite IH.
    now destruct (createAll calls1 w1).
Qed.

Lemma createAll_length calls w :
  length (createAll calls w).1 = length calls.
Proof.
  revert w. induction calls as [|c calls IH]; intros w; cbn; [done|].
  destruct (runCreate c w) as [r w1]. specialize (IH w1).
  destruct (createAll calls w1). cbn in *. now rewrite IH.
Qed.

(** The outcome of the call made after the calls [calls1]. *)
Lemma createAll_lookup calls1 c calls2 w :
  (createAll (calls1 ++ c :: calls2) w).1 !! length calls1
  = Some (runCreate c (createAll calls1 w).2).1.
Proof.
  rewrite createAll_app. cbn [fst].
  rewrite lookup_app_r by (rewrite createAll_length; lia).
  rewrite createAll_length, Nat.sub_diag. cbn.
  destruct (runCreate c (createAll calls1 w).2) as [r w1].
  now destruct (createAll calls2 w1).
Qed.

(** The count rule: the username of a created user is its slug numbered
    by the stored usernames that start with the slug. *)
Lemma runCreate_username c w u w' :
  like_plain (slugOf c) = true -> runCreate c w = (Ok u, w') ->
  user_username u
  = numberedSlug (slugOf c) (length (startingWith (slugOf c) (usersTable w))).
Proof.
  intros Hplain Hok. unfold runCreate in Hok.
  apply create_Ok in Hok as (-> & _). cbn.
  fold (slugOf c). now rewrite likeCount_startingWith.
Qed.

(** In a world where the usernames that start with the slug are the slug
    and its first numbered forms, a call with that slug and a new email
    creates the user, under the next numbered form. *)
Lemma runCreate_next c w m :
  wf_world w -> like_plain (slugOf c) = true ->
  startingWith (slugOf c) (usersTable w)
  = numberedSlug (slugOf c) <$> seq 0 m ->
  toLowerCase (call_email c) ∉ (user_email <$> usersTable w) ->
  exists u w', runCreate c w = (Ok u, w')
               /\ user_username u = numberedSlug (slugOf c) m.
Proof.
  intros Hwf Hplain Hinv Hfresh.
  assert (Hcount : likeCount (slugOf c) (usersTable w) = m).
  { rewrite likeCount_startingWith, Hinv, length_fmap by exact Hplain.
    apply length_seq. }
  unfold runCreate. rewrite create_run, decide_False by exact Hfresh.
  fold (slugOf c). rewrite Hcount. unfold saveEntity.
  match goal with
  | |- context [uniqueViolation ?t ?x] =>
      destruct (uniqueViolation t x) as [column|] eqn:Hv
  end; [exfalso|eauto].
  apply uniqueViolation_Some in Hv as [Hv|Hv]; cbn in Hv; [auto|].
  assert (Hin : numberedSlug (slugOf c) m
                ∈ startingWith (slugOf c) (usersTable w)).
  { apply list_elem_of_fmap in Hv as (r & Hr & Hin).
    unfold startingWith. rewrite Hr. apply list_elem_of_fmap_2.
    apply list_elem_of_filter. split; [|exact Hin].
    rewrite <- Hr. apply numberedSlug_prefix. }
  rewrite Hinv in Hin. apply list_elem_of_fmap in Hin as (k & Hk & Hseq).
  apply numberedSlug_inj in Hk. subst k.
  apply elem_of_seq in Hseq. lia.
Qed.

Lemma createAll_cons c calls w :
  createAll (c :: calls) w
  = ((runCreate c w).1 :: (createAll calls (runCreate c w).2).1,
     (createAll calls (runCreate c w).2).2).
Proof.
  cbn [createAll]. destruct (runCreate c w) as [r w1]. cbn [fst snd].
  now destruct (createAll calls w1).
Qed.

Lemma created_cons_Ok u rs : created (Ok u :: rs) = u :: created rs.
Proof. reflexivity. Qed.

Lemma created_cons_Throw e rs : created (Throw e :: rs) = created rs.
Proof. reflexivity. Qed.

(** A run whose calls have the slug or a slug unrelated to it numbers the
    users of the slug one after the other. *)
Lemma createAll_numbering calls w m slug :
  like_plain slug = true ->
  startingWith slug (usersTable w) = numberedSlug slug <$> seq 0 m ->
  Forall (fun c => slugOf c = slug \/ unrelated slug (slugOf c)) calls ->
  let users := withSlug slug (created (createAll calls w).1) in
  startingWith slug (usersTable (createAll calls w).2)
  = numberedSlug slug <$> seq 0 (m + length users)
  /\ user_username <$> users = numberedSlug slug <$> seq m (length users).
Proof.
  intros Hplain Hinv Hcalls. revert w m Hinv.
  induction Hcalls as [|c calls Hc _ IH]; intros w m Hinv.
  - cbn. rewrite Nat.add_0_r. auto.
  - rewrite createAll_cons. cbn [fst snd].
    destruct (runCreate c w) as [[u|e] w1] eqn:Hrun; cbn [fst snd].
    + rewrite created_cons_Ok.
      assert (Hname : generatePointSlug (user_name u) = slugOf c).
      { unfold runCreate in Hrun. now apply create_Ok in Hrun as (-> & _). }
      assert (Htab : usersTable w1 = (usersTable w ++ [u])%list).
      { unfold runCreate in Hrun.
        now apply create_Ok in Hrun as (_ & -> & _). }
      destruct Hc as [Hc|Hc].
      * assert (Hun : user_username u = numberedSlug slug m).
        { rewrite <- Hc in Hplain.
          rewrite (runCreate_username c w u w1 Hplain Hrun), Hc, Hinv.
          now rewrite length_fmap, length_seq. }
        assert (Hinv1 : startingWith slug (usersTable w1)
                        = numberedSlug slug <$> seq 0 (S m)).
        { rewrite Htab, startingWith_app, Hun, numberedSlug_prefix, Hinv.
          now rewrite seq_S, fmap_app. }
        destruct (IH w1 (S m) Hinv1) as [IH1 IH2].
        unfold withSlug in *. rewrite filter_cons, decide_True by congruence.
        rewrite fmap_cons, IH2, Hun, IH1. cbn [length seq fmap list_fmap].
        split; [|reflexivity]. do 2 f_equal. lia.
      * assert (Hinv1 : startingWith slug (usersTable w1)
                        = numberedSlug slug <$> seq 0 m).
        { rewrite Htab, startingWith_app.
          unfold runCreate in Hrun. apply create_Ok in Hrun as (-> & _).
          cbn [user_username set_id repo_create]. fold (slugOf c).
          rewrite (numberedSlug_unrelated _ _ _ Hc), Hinv.
          apply app_nil_r. }
        unfold withSlug in *. rewrite filter_cons, decide_False.
        { exact (IH w1 m Hinv1). }
        rewrite Hname. intros Heq. destruct Hc as [Hc _].
        rewrite Heq in Hc.
        pose proof (numberedSlug_prefix slug 0) as Hp.
        unfold numberedSlug in Hp. cbn in Hp. congruence.
    + rewrite created_cons_Throw.
      unfold runCreate in Hrun. apply create_Throw in Hrun. subst w1.
      exact (IH w m Hinv).
Qed.
(** C3, as amended. In every sequence of [create] calls on a consistent
    store the users created receive distinct usernames, and a user receives
    its point slug followed by the count of stored usernames that start
    with the slug at creation time (the slug alone when there is none).
    When no username of the store starts with the slug and every call has
    that slug or a slug unrelated to it, the users with the slug receive
    "slug", "slug1", "slug2", ... in the order of their creation, and a
    call with the slug and an email not stored yet creates the N-th such
    user under the slug followed by N-1. The slug is free of the wild
    cards of LIKE. *)
Theorem create_usernames calls w slug :
  wf_world w -> like_plain slug = true ->
  let outcome := (createAll calls w).1 in
  let users := withSlug slug (created outcome) in
  NoDup (user_username <$> created outcome)
  /\ (forall calls1 c calls2 u,
        calls = (calls1 ++ c :: calls2)%list -> slugOf c = slug ->
        outcome !! length calls1 = Some (Ok u) ->
        user_username u
        = numberedSlug slug
            (length (startingWith slug (usersTable (createAll calls1 w).2))))
  /\ (startingWith slug (usersTable w) = [] ->
      Forall (fun c => slugOf c = slug \/ unrelated slug (slugOf c)) calls ->
      user_username <$> users = numberedSlug slug <$> seq 0 (length users)
      /\ forall calls1 c calls2,
           calls = (calls1 ++ c :: calls2)%list -> slugOf c = slug ->
           toLowerCase (call_email c)
             ∉ (user_email <$> usersTable (createAll calls1 w).2) ->
           exists u,
             outcome !! length calls1 = Some (Ok u)
             /\ user_username u
                = numberedSlug slug
                    (length
                       (withSlug slug (created (createAll calls1 w).1)))).
Proof.
  intros Hwf Hplain outcome users. split; [|split].
  - destruct (createAll_table calls w Hwf) as [(_ & _ & Hnames & _) Htab].
    rewrite Htab, fmap_app in Hnames.
    now apply NoDup_app in Hnames as (_ & _ & Hnames).
  - intros calls1 c calls2 u -> Hc Hlook. subst outcome.
    rewrite createAll_lookup in Hlook. injection Hlook as Hlook.
    destruct (runCreate c (createAll calls1 w).2) as [r w1] eqn:Hrun.
    cbn in Hlook. subst r. rewrite <- Hc in *.
    now apply (runCreate_username c _ u w1).
  - intros Hnone Hcalls. split.
    + apply (createAll_numbering calls w 0 slug Hplain); [|exact Hcalls].
      now rewrite Hnone.
    + intros calls1 c calls2 -> Hc Hfresh. subst outcome.
      apply Forall_app in Hcalls as [Hcalls1 _].
      destruct (createAll_numbering calls1 w 0 slug Hplain) as [Hinv _];
        [now rewrite Hnone|exact Hcalls1|].
      destruct (createAll_table calls1 w Hwf) as [Hwf1 _].
      rewrite <- Hc in Hplain, Hinv.
      destruct (runCreate_next c _ _ Hwf1 Hplain Hinv Hfresh)
        as (u & w1 & Hrun & Hun).
      exists u. rewrite createAll_lookup, Hrun. split; [reflexivity|].
      rewrite Hun, Hc. reflexivity.
Qed.
End Properties.

(** * Further properties of the service *)

Lemma lowerAscii_idem (c : ascii) :
  Sample.lowerAscii (Sample.lowerAscii c) = Sample.lowerAscii c.
Proof. destruct c as [[] [] [] [] [] [] [] []]; reflexivity. Qed.

Lemma toLowerAscii_idem (s : string) :
  Sample.toLowerAscii (Sample.toLowerAscii s) = Sample.toLowerAscii s.
Proof.
  induction s as [|c s IH]; [reflexivity|].
  cbn [Sample.toLowerAscii]. now rewrite lowerAscii_idem, IH.
Qed.

Section MoreProperties.
Context `{Collaborators}.
Implicit Types (w : World) (u r : UserEntity) (t : list UserEntity).

(** ** Lookups by email and by username *)

Lemma find_app_last (P : UserEntity -> bool) t u :
  (forall r, r ∈ t -> P r = false) -> P u = true ->
  List.find P (t ++ [u]) = Some u.
Proof.
  induction t as [|x t IH]; intros Hno Hu; cbn.
  - now rewrite Hu.
  - rewrite (Hno x) by apply list_elem_of_here.
    apply IH; [|exact Hu]. intros r Hr. apply Hno.
    now apply list_elem_of_further.
Qed.

Lemma userByEmail_Some w email u :
  userByEmail w email = Some u -> (u ∈ usersTable w) /\ user_email u = email.
Proof.
  unfold userByEmail. intros Hfind. apply find_some in Hfind as [Hin He].
  split; [now apply list_elem_of_In|]. now apply bool_decide_eq_true in He.
Qed.

Lemma userByEmail_None w email :
  userByEmail w email = None <-> email ∉ (user_email <$> usersTable w).
Proof.
  unfold userByEmail. split.
  - intros Hfind Hin. apply list_elem_of_fmap in Hin as (r & -> & Hr).
    apply list_elem_of_In in Hr. pose proof (find_none _ _ Hfind r Hr) as Hno.
    cbn in Hno. now apply bool_decide_eq_false in Hno.
  - intros Hnot.
    destruct (List.find _ (usersTable w)) as [r|] eqn:Hfind; [|reflexivity].
    apply find_some in Hfind as [Hin He]. exfalso. apply Hnot.
    apply bool_decide_eq_true in He. subst email.
    apply list_elem_of_fmap_2. now apply list_elem_of_In.
Qed.

Lemma userByUsername_Some w username u :
  userByUsername w username = Some u ->
  (u ∈ usersTable w) /\ user_username u = username.
Proof.
  unfold userByUsername. intros Hfind. apply find_some in Hfind as [Hin He].
  split; [now apply list_elem_of_In|]. now apply bool_decide_eq_true in He.
Qed.

Lemma userByUsername_None w username :
  userByUsername w username = None
  <-> username ∉ (user_username <$> usersTable w).
Proof.
  unfold userByUsername. split.
  - intros Hfind Hin. apply list_elem_of_fmap in Hin as (r & -> & Hr).
    apply list_elem_of_In in Hr. pose proof (find_none _ _ Hfind r Hr) as Hno.
    cbn in Hno. now apply bool_decide_eq_false in Hno.
  - intros Hnot.
    destruct (List.find _ (usersTable w)) as [r|] eqn:Hfind; [|reflexivity].
    apply find_some in Hfind as [Hin He]. exfalso. apply Hnot.
    apply bool_decide_eq_true in He. subst username.
    apply list_elem_of_fmap_2. now apply list_elem_of_In.
Qed.

(** In a table without duplicate emails a row is the one found under its
    email; likewise for usernames. *)
Lemma userByEmail_stored w u :
  NoDup (user_email <$> usersTable w) -> u ∈ usersTable w ->
  userByEmail w (user_email u) = Some u.
Proof.
  intros Hnd Hin.
  destruct (userByEmail w (user_email u)) as [r|] eqn:Hfind.
  - apply userByEmail_Some in Hfind as [Hr He]. f_equal.
    now apply (NoDup_fmap_elem user_email (usersTable w)).
  - apply userByEmail_None in Hfind. exfalso. apply Hfind.
    now apply list_elem_of_fmap_2.
Qed.

Lemma userByUsername_stored w u :
  NoDup (user_username <$> usersTable w) -> u ∈ usersTable w ->
  userByUsername w (user_username u) = Some u.
Proof.
  intros Hnd Hin.
  destruct (userByUsername w (user_username u)) as [r|] eqn:Hfind.
  - apply userByUsername_Some in Hfind as [Hr He]. f_equal.
    now apply (NoDup_fmap_elem user_username (usersTable w)).
  - apply userByUsername_None in Hfind. exfalso. apply Hfind.
    now apply list_elem_of_fmap_2.
Qed.

Lemma findOneByEmail_run w email :
  findOneByEmail email w
  = match userByEmail w (toLowerCase email) with
    | Some u => (Ok u, w)
    | None => (Throw (UnauthorizedException "Invalid credentials"), w)
    end.
Proof.
  unfold findOneByEmail, mbind, M_bind, repo_findOne.
  fold (userByEmail w (toLowerCase email)).
  now destruct (userByEmail w (toLowerCase email)).
Qed.

Lemma uncheckedUserByEmail_run w email :
  uncheckedUserByEmail email w = (Ok (userByEmail w (toLowerCase email)), w).
Proof. reflexivity. Qed.

Lemma findOneByUsername_run w username forAuth :
  findOneByUsername username forAuth w
  = match userByUsername w (toLowerCase username) with
    | Some u => (Ok u, w)
    | None =>
        (Throw (if forAuth
                then UnauthorizedException "Invalid credentials"
                else NotFoundException "User not found"), w)
    end.
Proof.
  unfold findOneByUsername, mbind, M_bind, repo_findOne.
  fold (userByUsername w (toLowerCase username)).
  now destruct (userByUsername w (toLowerCase username)), forAuth.
Qed.

(** X1. A user that [create] has stored is found again: by its id, and by
    the email of the call written in any letter case, checked or
    unchecked. *)
Theorem create_then_lookup w email name provider password salt u w' :
  wf_world w ->
  create email name provider password salt w = (Ok u, w') ->
  findOneById (user_id u) w' = (Ok u, w')
  /\ forall email2,
       toLowerCase email2 = toLowerCase email ->
       findOneByEmail email2 w' = (Ok u, w')
       /\ uncheckedUserByEmail email2 w' = (Ok (Some u), w').
Proof.
  intros Hwf Hok. split.
  - rewrite findOneById_run.
    now rewrite (create_stored _ _ _ _ _ _ _ _ Hwf Hok).
  - intros email2 Hsame.
    assert (Hfind : userByEmail w' (toLowerCase email2) = Some u).
    { apply create_Ok in Hok as (Hu & Hw' & Hfree).
      apply uniqueViolation_None in Hfree as [He _].
      assert (Hemail : user_email u = toLowerCase email) by now rewrite Hu.
      unfold userByEmail. rewrite Hw'. cbn [usersTable].
      apply find_app_last.
      - intros r Hr. apply bool_decide_eq_false_2. intros Heq. apply He.
        rewrite Hemail, <- Hsame, <- Heq. now apply list_elem_of_fmap_2.
      - apply bool_decide_eq_true_2. congruence. }
    now rewrite findOneByEmail_run, uncheckedUserByEmail_run, Hfind.
Qed.

(** X2. [findOneByEmail] and [uncheckedUserByEmail] never touch the world.
    When some stored email is the lower-case form of the argument both
    return the same stored user, whose email is that form (the user itself
    when stored emails are unique); when none is, the first fails with the
    unauthorized error "Invalid credentials" and the second returns null.
    So the first returns a user exactly when the second returns one, and two
    spellings of an email with the same lower-case form get the same
    answer. *)
Theorem findOneByEmail_unchecked w email :
  (findOneByEmail email w).2 = w
  /\ (uncheckedUserByEmail email w).2 = w
  /\ (toLowerCase email ∈ (user_email <$> usersTable w) ->
      exists u,
        findOneByEmail email w = (Ok u, w)
        /\ uncheckedUserByEmail email w = (Ok (Some u), w)
        /\ (u ∈ usersTable w)
        /\ user_email u = toLowerCase email)
  /\ (forall u,
        NoDup (user_email <$> usersTable w) -> u ∈ usersTable w ->
        user_email u = toLowerCase email ->
        findOneByEmail email w = (Ok u, w)
        /\ uncheckedUserByEmail email w = (Ok (Some u), w))
  /\ (toLowerCase email ∉ (user_email <$> usersTable w) ->
      findOneByEmail email w
      = (Throw (UnauthorizedException "Invalid credentials"), w)
      /\ uncheckedUserByEmail email w = (Ok None, w))
  /\ (forall u, findOneByEmail email w = (Ok u, w)
                <-> uncheckedUserByEmail email w = (Ok (Some u), w))
  /\ (forall u w', findOneByEmail email w = (Ok u, w') ->
                   w' = w /\ (u ∈ usersTable w)
                   /\ user_email u = toLowerCase email)
  /\ (forall email2, toLowerCase email2 = toLowerCase email ->
                     findOneByEmail email2 w = findOneByEmail email w
                     /\ uncheckedUserByEmail email2 w
                        = uncheckedUserByEmail email w).
Proof.
  rewrite uncheckedUserByEmail_run, findOneByEmail_run.
  repeat match goal with |- _ /\ _ => split end.
  - now destruct (userByEmail w (toLowerCase email)).
  - reflexivity.
  - intros Hin.
    destruct (userByEmail w (toLowerCase email)) as [u|] eqn:Hfind.
    + exists u. apply userByEmail_Some in Hfind. tauto.
    + apply userByEmail_None in Hfind. contradiction.
  - intros u Hnd Hin He. rewrite <- He.
    now rewrite (userByEmail_stored w u Hnd Hin).
  - intros Hnot. apply userByEmail_None in Hnot. now rewrite Hnot.
  - intros u.
    destruct (userByEmail w (toLowerCase email)); split; congruence.
  - intros u w'.
    destruct (userByEmail w (toLowerCase email)) as [r|] eqn:Hfind;
      [|discriminate].
    intros [= <- <-]. apply userByEmail_Some in Hfind. tauto.
  - intros email2 Hsame.
    now rewrite !findOneByEmail_run, !uncheckedUserByEmail_run, Hsame.
Qed.

Section LowerCaseUsernames.
(** Lower-casing a lower-cased string changes nothing. *)
Hypothesis toLowerCase_idem :
  forall s, toLowerCase (toLowerCase s) = toLowerCase s.

(** X3. The flag [forAuth] of [findOneByUsername] changes the error and
    nothing else. When some stored username is the lower-case form of the
    argument both modes return the same stored user, whose username is that
    form (the user itself when stored usernames are unique), and leave the
    world as it is; otherwise the call fails with "Invalid credentials"
    (unauthorized) under [forAuth] and with "User not found" (not found)
    without it. A user that is returned has a username in lower case. *)
Theorem findOneByUsername_forAuth w username :
  (toLowerCase username ∈ (user_username <$> usersTable w) ->
   exists u,
     (u ∈ usersTable w)
     /\ user_username u = toLowerCase username
     /\ forall forAuth, findOneByUsername username forAuth w = (Ok u, w))
  /\ (forall u forAuth,
        NoDup (user_username <$> usersTable w) -> u ∈ usersTable w ->
        user_username u = toLowerCase username ->
        findOneByUsername username forAuth w = (Ok u, w))
  /\ (toLowerCase username ∉ (user_username <$> usersTable w) ->
      findOneByUsername username true w
      = (Throw (UnauthorizedException "Invalid credentials"), w)
      /\ findOneByUsername username false w
         = (Throw (NotFoundException "User not found"), w))
  /\ (forall u w' forAuth,
        findOneByUsername username forAuth w = (Ok u, w') ->
        w' = w /\ (u ∈ usersTable w)
        /\ user_username u = toLowerCase username
        /\ toLowerCase (user_username u) = user_username u
        /\ findOneByUsername username (negb forAuth) w = (Ok u, w)).
Proof.
  repeat match goal with |- _ /\ _ => split end.
  - intros Hin.
    destruct (userByUsername w (toLowerCase username)) as [u|] eqn:Hfind.
    + exists u. apply userByUsername_Some in Hfind as Hu.
      destruct Hu as [Hu Hname]. split; [exact Hu|]. split; [exact Hname|].
      intros forAuth. now rewrite findOneByUsername_run, Hfind.
    + apply userByUsername_None in Hfind. contradiction.
  - intros u forAuth Hnd Hin Hname. rewrite findOneByUsername_run, <- Hname.
    now rewrite (userByUsername_stored w u Hnd Hin).
  - intros Hnot. apply userByUsername_None in Hnot.
    now rewrite !findOneByUsername_run, Hnot.
  - intros u w' forAuth. rewrite !findOneByUsername_run.
    destruct (userByUsername w (toLowerCase username)) as [r|] eqn:Hfind;
      [|discriminate].
    intros [= <- <-]. apply userByUsername_Some in Hfind as [Hin Hname].
    repeat split; auto. rewrite Hname. apply toLowerCase_idem.
Qed.
End LowerCaseUsernames.

(** ** What a call that succeeded has done *)

Lemma saveEntity_update_Ok w u' r w' :
  saveEntity u' false w = (Ok r, w') ->
  r = u' /\ w' = overwrite w u'
  /\ (user_email u' ∉ (user_email <$> otherRows u' (usersTable w)))
  /\ (user_username u' ∉ (user_username <$> otherRows u' (usersTable w))).
Proof.
  unfold saveEntity.
  destruct (uniqueViolation (otherRows u' (usersTable w)) u') eqn:Hv;
    [discriminate|].
  intros [= <- <-]. apply uniqueViolation_None in Hv. tauto.
Qed.

Lemma saveEntity_update_Throw w u' e w' :
  saveEntity u' false w = (Throw e, w') -> w' = w.
Proof.
  unfold saveEntity.
  destruct (uniqueViolation (otherRows u' (usersTable w)) u');
    [now intros [= _ <-]|discriminate].
Qed.

Lemma updatePassword_run w id old new salt :
  updatePassword id old new salt w
  = match storedUser w id with
    | None => (Throw (NotFoundException "User not found"), w)
    | Some u =>
        if negb (compare old (user_password u))
        then (Throw (BadRequestException "Wrong password"), w)
        else if compare new (user_password u)
        then (Throw (BadRequestException "New password must be different"), w)
        else saveEntity (withPassword u (hash new 10 salt)) false w
    end.
Proof.
  unfold updatePassword, mbind, M_bind. rewrite findOneById_run.
  destruct (storedUser w id) as [u|]; [|reflexivity].
  destruct (compare old (user_password u)); cbn [negb]; [|reflexivity].
  now destruct (compare new (user_password u)).
Qed.

Lemma resetPassword_run w id version new salt :
  resetPassword id version new salt w
  = match storedUser w id with
    | None => (Throw (UnauthorizedException "Invalid credentials"), w)
    | Some u =>
        if (cred_version (user_credentials u) =? version)%Z
        then saveEntity (withPassword u (hash new 10 salt)) false w
        else (Throw (UnauthorizedException "Invalid credentials"), w)
    end.
Proof.
  unfold resetPassword, mbind, M_bind. rewrite findOneByCredentials_run.
  destruct (storedUser w id) as [u|]; [|reflexivity].
  now destruct (cred_version (user_credentials u) =? version)%Z.
Qed.

Lemma confirmEmail_run w id version :
  confirmEmail id version w
  = match storedUser w id with
    | None => (Throw (UnauthorizedException "Invalid credentials"), w)
    | Some u =>
        if (cred_version (user_credentials u) =? version)%Z
        then
          if user_confirmed u
          then (Throw (BadRequestException "Email already confirmed"), w)
          else
            saveEntity
              (set_credentials (set_confirmed u true)
                 (updateVersion (user_credentials u)))
              false w
        else (Throw (UnauthorizedException "Invalid credentials"), w)
    end.
Proof.
  unfold confirmEmail, mbind, M_bind. rewrite findOneByCredentials_run.
  destruct (storedUser w id) as [u|]; [|reflexivity].
  destruct (cred_version (user_credentials u) =? version)%Z; [|reflexivity].
  now destruct (user_confirmed u).
Qed.

Lemma updateEmail_run w id dto :
  updateEmail id dto w
  = match storedUser w id with
    | None => (Throw (NotFoundException "User not found"), w)
    | Some u =>
        if negb (compare (dto_password dto) (user_password u))
        then (Throw (BadRequestException "Wrong password"), w)
        else if bool_decide (user_email u = toLowerCase (dto_email dto))
        then (Throw (BadRequestException "Email should be different"), w)
        else if decide (toLowerCase (dto_email dto)
                        ∈ (user_email <$> usersTable w))
        then (Throw (ConflictException "Email already in use"), w)
        else saveEntity (set_email u (toLowerCase (dto_email dto))) false w
    end.
Proof.
  unfold updateEmail. unfold mbind at 1. unfold M_bind at 1.
  rewrite findOneById_run.
  destruct (storedUser w id) as [u|]; [|reflexivity].
  destruct (compare (dto_password dto) (user_password u)); cbn [negb];
    [|reflexivity].
  destruct (bool_decide (user_email u = toLowerCase (dto_email dto)));
    [reflexivity|].
  unfold mbind, M_bind. rewrite checkEmailUniqueness_run.
  now destruct (decide (toLowerCase (dto_email dto)
                        ∈ (user_email <$> usersTable w))).
Qed.

Lemma delete_run w id password :
  delete id password w
  = match storedUser w id with
    | None => (Throw (NotFoundException "User not found"), w)
    | Some u =>
        if negb (compare password (user_password u))
        then (Throw (BadRequestException "Wrong password"), w)
        else (Ok u, set_usersTable w (otherRows u (usersTable w)))
    end.
Proof.
  unfold delete, mbind, M_bind. rewrite findOneById_run.
  destruct (storedUser w id) as [u|]; [|reflexivity].
  now destruct (compare password (user_password u)).
Qed.

Lemma updateName_run w id name :
  updateName id name w
  = match storedUser w id with
    | None => (Throw (NotFoundException "User not found"), w)
    | Some u =>
        saveEntity
          (set_username (set_name u (formatTitle name))
             (numberedSlug (generatePointSlug (formatTitle name))
                (likeCount (generatePointSlug (formatTitle name))
                   (usersTable w))))
          false w
    end.
Proof.
  unfold updateName. unfold mbind at 1. unfold M_bind at 1.
  rewrite findOneById_run.
  destruct (storedUser w id) as [u|]; [|reflexivity].
  unfold mbind, M_bind. now rewrite generateUsername_run.
Qed.

Lemma updateOnlineStatus_run w id status :
  updateOnlineStatus id status w
  = match storedUser w id with
    | None => (Throw (NotFoundException "User not found"), w)
    | Some u =>
        saveEntity
          (match cacheStore w !! ("sessions:" +:+ pretty id) with
           | Some _ => set_onlineStatus (set_defaultStatus u status) status
           | None => set_defaultStatus u status
           end)
          false w
    end.
Proof.
  unfold updateOnlineStatus, mbind, M_bind, cache_get.
  rewrite findOneById_run. now destruct (storedUser w id).
Qed.

Lemma checkUsernameUniqueness_run w username :
  checkUsernameUniqueness username w
  = if decide (username ∈ (user_username <$> usersTable w))
    then (Throw (ConflictException "Username already in use"), w)
    else (Ok tt, w).
Proof.
  unfold checkUsernameUniqueness, mbind, M_bind, repo_count.
  destruct (0 <? length (filter (fun u => user_username u = username)
                           (usersTable w)))%nat eqn:Hc.
  - apply count_pos_elem in Hc. now rewrite decide_True.
  - rewrite decide_False; [reflexivity|].
    intros Hin. apply count_pos_elem in Hin. congruence.
Qed.

Lemma updateUsername_run w id username :
  updateUsername id username w
  = match storedUser w id with
    | None => (Throw (NotFoundException "User not found"), w)
    | Some u =>
        if decide (toLowerCase username ∈ (user_username <$> usersTable w))
        then (Throw (ConflictException "Username already in use"), w)
        else saveEntity (set_username u (toLowerCase username)) false w
    end.
Proof.
  unfold updateUsername. unfold mbind at 1. unfold M_bind at 1.
  rewrite findOneById_run.
  destruct (storedUser w id) as [u|]; [|reflexivity].
  unfold mbind, M_bind. rewrite checkUsernameUniqueness_run.
  now destruct (decide (toLowerCase username
                        ∈ (user_username <$> usersTable w))).
Qed.

(** ** The change of username *)

(** X4. For an existing user in a consistent store, [updateUsername(id,
    username)] fails with the conflict error "Username already in use" when
    the lower-cased username is stored for any account, the user's own
    included, and leaves the world as it is; otherwise it stores the
    lower-cased username and changes no other column of the user. *)
Theorem updateUsername_conflict_or_stored w id username u :
  wf_world w -> storedUser w id = Some u ->
  let formattedUsername := toLowerCase username in
  let u' := set_username u formattedUsername in
  (formattedUsername ∈ (user_username <$> usersTable w) ->
   updateUsername id username w
   = (Throw (ConflictException "Username already in use"), w))
  /\ (user_username u = formattedUsername ->
      updateUsername id username w
      = (Throw (ConflictException "Username already in use"), w))
  /\ (formattedUsername ∉ (user_username <$> usersTable w) ->
      updateUsername id username w = (Ok u', overwrite w u')
      /\ storedUser (overwrite w u') id = Some u'
      /\ user_credentials u' = user_credentials u
      /\ user_email u' = user_email u
      /\ user_name u' = user_name u
      /\ user_password u' = user_password u).
Proof.
  intros Hwf Hu formattedUsername u'.
  apply storedUser_Some in Hu as Hu'. destruct Hu' as [Hin Hid].
  rewrite updateUsername_run, Hu. fold formattedUsername.
  split; [|split].
  - intros Htaken. now rewrite decide_True.
  - intros Hown. rewrite decide_True; [reflexivity|].
    rewrite <- Hown. now apply list_elem_of_fmap_2.
  - intros Hfree. rewrite decide_False by exact Hfree.
    assert (Hsave : saveEntity u' false w = (Ok u', overwrite w u')).
    { apply saveEntity_update_run.
      - now apply (wf_email_others w u u').
      - intros Hmem. apply Hfree.
        apply list_elem_of_fmap in Hmem as (r & He & Hr).
        apply elem_of_otherRows in Hr as [_ Hr].
        change (user_username u') with formattedUsername in He.
        rewrite He. now apply list_elem_of_fmap_2. }
    split; [exact Hsave|]. split; [|repeat split].
    rewrite (storedUser_replaceRow w u) by (cbn; now rewrite Hid).
    rewrite decide_True; [reflexivity|]. cbn. now rewrite Hid.
Qed.

(** X5. After a successful [updateUsername(id, username)] on a consistent
    store the user is found by [findOneByUsername] under that username
    written in any letter case, in both modes, and no longer under the
    username it had before (a call that succeeds always changes it). *)
Theorem updateUsername_then_lookup w id username u' w' :
  wf_world w ->
  updateUsername id username w = (Ok u', w') ->
  (forall username2 forAuth,
      toLowerCase username2 = toLowerCase username ->
      findOneByUsername username2 forAuth w' = (Ok u', w'))
  /\ (forall u previous,
        storedUser w id = Some u ->
        toLowerCase previous = user_username u ->
        findOneByUsername previous false w'
        = (Throw (NotFoundException "User not found"), w')).
Proof.
  intros Hwf Hok.
  rewrite updateUsername_run in Hok.
  destruct (storedUser w id) as [u|] eqn:Hu; [|discriminate].
  destruct (decide (toLowerCase username ∈ (user_username <$> usersTable w)))
    as [|Hfree]; [discriminate|].
  pose proof (saveEntity_keeps_wf _ _ _ _ _ Hwf Hok) as Hwf'.
  apply saveEntity_update_Ok in Hok as (-> & -> & _ & _).
  apply storedUser_Some in Hu as Hu'. destruct Hu' as [Hin Hid].
  set (u' := set_username u (toLowerCase username)) in *.
  assert (Hread : storedUser (overwrite w u') id = Some u').
  { rewrite (storedUser_replaceRow w u) by (cbn; now rewrite Hid).
    rewrite decide_True; [reflexivity|]. cbn. now rewrite Hid. }
  apply storedUser_Some in Hread as [Hin' _].
  split.
  - intros username2 forAuth Hsame. rewrite findOneByUsername_run, Hsame.
    destruct Hwf' as (_ & _ & Hnames & _).
    change (toLowerCase username) with (user_username u').
    now rewrite (userByUsername_stored _ u' Hnames Hin').
  - intros u0 previous [= <-] Hprev. rewrite findOneByUsername_run, Hprev.
    assert (Hgone : userByUsername (overwrite w u') (user_username u) = None).
    { apply userByUsername_None. intros Hmem.
      apply list_elem_of_fmap in Hmem as (r & He & Hr).
      cbn [overwrite usersTable set_usersTable] in Hr.
      apply elem_of_replaceRow in Hr as [->|Hr].
      - apply Hfree.
        change (user_username u') with (toLowerCase username) in He.
        rewrite <- He. now apply list_elem_of_fmap_2.
      - apply (wf_username_others w u u' Hwf Hin eq_refl).
        rewrite He. now apply list_elem_of_fmap_2. }
    now rewrite Hgone.
Qed.
(** ** Missing users *)

(** X6. With no user stored under the id, the operations that look the user
    up by id ([updatePassword], [updateEmail], [delete], [updateName],
    [updateUsername], [updateOnlineStatus], [findOneById]) fail with the
    not-found error "User not found", and those that go through the
    credentials ([findOneByCredentials], [confirmEmail], [resetPassword])
    fail with the unauthorized error "Invalid credentials"; none of them
    touches the world. *)
Theorem missing_user_errors w id :
  storedUser w id = None ->
  let notFound : Result UserEntity * World :=
    (Throw (NotFoundException "User not found"), w) in
  let unauthorized : Result UserEntity * World :=
    (Throw (UnauthorizedException "Invalid credentials"), w) in
  findOneById id w = notFound
  /\ (forall old new salt, updatePassword id old new salt w = notFound)
  /\ (forall dto, updateEmail id dto w = notFound)
  /\ (forall password, delete id password w = notFound)
  /\ (forall name, updateName id name w = notFound)
  /\ (forall username, updateUsername id username w = notFound)
  /\ (forall status, updateOnlineStatus id status w = notFound)
  /\ (forall version, findOneByCredentials id version w = unauthorized)
  /\ (forall version, confirmEmail id version w = unauthorized)
  /\ (forall version new salt,
        resetPassword id version new salt w = unauthorized).
Proof.
  intros Hnone notFound unauthorized.
  repeat match goal with |- _ /\ _ => split end; intros.
  - now rewrite findOneById_run, Hnone.
  - now rewrite updatePassword_run, Hnone.
  - now rewrite updateEmail_run, Hnone.
  - now rewrite delete_run, Hnone.
  - now rewrite updateName_run, Hnone.
  - now rewrite updateUsername_run, Hnone.
  - now rewrite updateOnlineStatus_run, Hnone.
  - now rewrite findOneByCredentials_run, Hnone.
  - now rewrite confirmEmail_run, Hnone.
  - now rewrite resetPassword_run, Hnone.
Qed.

(** ** Deletion *)

Lemma find_otherRows t u j :
  List.find (fun r => bool_decide (user_id r = j)) (otherRows u t)
  = if decide (j = user_id u) then None
    else List.find (fun r => bool_decide (user_id r = j)) t.
Proof.
  unfold otherRows. induction t as [|x t IH].
  - now destruct (decide (j = user_id u)).
  - rewrite filter_cons. destruct (decide (user_id x <> user_id u)) as [Hx|Hx].
    + cbn [List.find]. rewrite IH.
      destruct (bool_decide (user_id x = j)) eqn:Hb; [|reflexivity].
      apply bool_decide_eq_true in Hb.
      destruct (decide (j = user_id u)); [congruence|reflexivity].
    + rewrite IH. cbn [List.find].
      destruct (decide (j = user_id u)) as [->|Hj]; [reflexivity|].
      rewrite bool_decide_eq_false_2; [reflexivity|].
      intros Heq. apply Hx. intros Hne. apply Hj. congruence.
Qed.

(** X7. For an existing user, [delete(id, password)] succeeds exactly when
    the password matches the stored hash and fails with "Wrong password"
    otherwise. When it succeeds it returns the user as it was stored, the id
    is no longer found ([findOneById] fails with "User not found"), every
    other user is stored as before, and in a consistent store no later
    [create] under the email of the deleted user fails with a conflict. *)
Theorem delete_removes_user w id password u :
  storedUser w id = Some u ->
  (compare password (user_password u) = false ->
   delete id password w
   = (Throw (BadRequestException "Wrong password"), w))
  /\ (compare password (user_password u) = true ->
      exists w',
        delete id password w = (Ok u, w')
        /\ storedUser w' id = None
        /\ findOneById id w'
           = (Throw (NotFoundException "User not found"), w')
        /\ (forall j, j <> id -> storedUser w' j = storedUser w j)
        /\ (wf_world w ->
            forall email name provider password2 salt message,
              toLowerCase email = user_email u ->
              (create email name provider password2 salt w').1
              <> Throw (ConflictException message))).
Proof.
  intros Hu. apply storedUser_Some in Hu as Hu'. destruct Hu' as [Hin Hid].
  rewrite delete_run, Hu. split; [now intros ->|].
  intros ->. cbn [negb]. eexists. split; [reflexivity|].
  assert (Hgone : storedUser
                    (set_usersTable w (otherRows u (usersTable w))) id = None).
  { unfold storedUser. cbn [usersTable set_usersTable].
    rewrite find_otherRows. now rewrite decide_True. }
  split; [exact Hgone|]. split; [now rewrite findOneById_run, Hgone|].
  split.
  - intros j Hj. unfold storedUser. cbn [usersTable set_usersTable].
    rewrite find_otherRows. rewrite decide_False by congruence. reflexivity.
  - intros Hwf email name provider password2 salt message Hsame.
    rewrite create_run. cbn [usersTable set_usersTable].
    rewrite decide_False.
    + unfold saveEntity.
      match goal with
      | |- context [uniqueViolation ?t ?x] => destruct (uniqueViolation t x)
      end; discriminate.
    + rewrite Hsame. now apply (wf_email_others w u u).
Qed.

(** ** Credentials versions across operations *)

Lemma overwrite_stored w id u u' :
  storedUser w id = Some u -> user_id u' = user_id u ->
  storedUser (overwrite w u') id = Some u'.
Proof.
  intros Hu Hid. apply storedUser_Some in Hu as Hu'. destruct Hu' as [_ Hidu].
  rewrite (storedUser_replaceRow w u) by (rewrite Hid, Hidu; exact Hu).
  rewrite decide_True by congruence. reflexivity.
Qed.

(** X8. A password change uses up the credentials version. After a
    successful [updatePassword] or [resetPassword] on a user stored at
    version [v], the version [v] is refused by [findOneByCredentials], by
    [confirmEmail] and by a further [resetPassword] (a reset token works
    once), with the unauthorized error "Invalid credentials", and the
    version [v + 1] is the one that [findOneByCredentials] accepts. *)
Theorem password_change_uses_up_version w id u u' w' :
  storedUser w id = Some u ->
  (exists old new salt, updatePassword id old new salt w = (Ok u', w'))
  \/ (exists version new salt,
        resetPassword id version new salt w = (Ok u', w')) ->
  let v := cred_version (user_credentials u) in
  let unauthorized : Result UserEntity * World :=
    (Throw (UnauthorizedException "Invalid credentials"), w') in
  findOneByCredentials id v w' = unauthorized
  /\ findOneByCredentials id (v + 1) w' = (Ok u', w')
  /\ confirmEmail id v w' = unauthorized
  /\ (forall new salt, resetPassword id v new salt w' = unauthorized).
Proof.
  intros Hu Hok v unauthorized.
  assert (Hshape : exists hashed,
             u' = withPassword u hashed /\ w' = overwrite w u').
  { destruct Hok as [(old & new & salt & Hok)|(version & new & salt & Hok)].
    - rewrite updatePassword_run, Hu in Hok.
      destruct (compare old (user_password u)); [|discriminate].
      destruct (compare new (user_password u)); [discriminate|].
      apply saveEntity_update_Ok in Hok as (-> & -> & _). eauto.
    - rewrite resetPassword_run, Hu in Hok.
      destruct (cred_version (user_credentials u) =? version)%Z;
        [|discriminate].
      apply saveEntity_update_Ok in Hok as (-> & -> & _). eauto. }
  destruct Hshape as (hashed & Hu' & ->).
  assert (Hread : storedUser (overwrite w u') id = Some u')
    by (apply (overwrite_stored w id u); [exact Hu|now rewrite Hu']).
  assert (Hver : cred_version (user_credentials u') = (v + 1)%Z)
    by now rewrite Hu'.
  assert (Hne : (v + 1 =? v)%Z = false) by (apply Z.eqb_neq; lia).
  subst unauthorized. split; [|split; [|split]].
  - now rewrite findOneByCredentials_run, Hread, Hver, Hne.
  - now rewrite findOneByCredentials_run, Hread, Hver, Z.eqb_refl.
  - now rewrite confirmEmail_run, Hread, Hver, Hne.
  - intros new salt. now rewrite resetPassword_run, Hread, Hver, Hne.
Qed.

(** X9. The profile changes leave the credentials alone: after a successful
    [updateEmail], [updateName], [updateUsername] or [updateOnlineStatus]
    the user has the credentials and the password hash it had, so
    [findOneByCredentials] accepts a version after the call exactly when it
    accepted it before. *)
Theorem profile_changes_keep_credentials w id u u' w' :
  storedUser w id = Some u ->
  (exists dto, updateEmail id dto w = (Ok u', w'))
  \/ (exists name, updateName id name w = (Ok u', w'))
  \/ (exists username, updateUsername id username w = (Ok u', w'))
  \/ (exists status, updateOnlineStatus id status w = (Ok u', w')) ->
  user_credentials u' = user_credentials u
  /\ user_password u' = user_password u
  /\ storedUser w' id = Some u'
  /\ forall version,
       findOneByCredentials id version w' = (Ok u', w')
       <-> findOneByCredentials id version w = (Ok u, w).
Proof.
  intros Hu Hok.
  assert (Hshape : w' = overwrite w u' /\ user_id u' = user_id u
                   /\ user_credentials u' = user_credentials u
                   /\ user_password u' = user_password u).
  { destruct Hok as [(dto & Hok)|[(name & Hok)|[(name & Hok)|(st & Hok)]]].
    - rewrite updateEmail_run, Hu in Hok.
      destruct (compare (dto_password dto) (user_password u));
        [|discriminate]. cbn [negb] in Hok.
      destruct (bool_decide (user_email u = toLowerCase (dto_email dto)));
        [discriminate|].
      destruct (decide (toLowerCase (dto_email dto)
                        ∈ (user_email <$> usersTable w))); [discriminate|].
      now apply saveEntity_update_Ok in Hok as (-> & -> & _).
    - rewrite updateName_run, Hu in Hok.
      now apply saveEntity_update_Ok in Hok as (-> & -> & _).
    - rewrite updateUsername_run, Hu in Hok.
      destruct (decide (toLowerCase name ∈ (user_username <$> usersTable w)));
        [discriminate|].
      now apply saveEntity_update_Ok in Hok as (-> & -> & _).
    - rewrite updateOnlineStatus_run, Hu in Hok.
      apply saveEntity_update_Ok in Hok as (-> & -> & _).
      now destruct (cacheStore w !! ("sessions:" +:+ pretty id)). }
  destruct Hshape as (-> & Hid & Hcred & Hpw).
  assert (Hread : storedUser (overwrite w u') id = Some u')
    by now apply (overwrite_stored w id u).
  split; [exact Hcred|]. split; [exact Hpw|]. split; [exact Hread|].
  intros version. rewrite !findOneByCredentials_run, Hread, Hu, Hcred.
  destruct (cred_version (user_credentials u) =? version)%Z;
    split; (reflexivity || discriminate).
Qed.

(** X10. After a successful [updateEmail] on a consistent store the user is
    found by [findOneByEmail] under the new email written in any letter
    case, and a lookup under the email it had before fails with the
    unauthorized error "Invalid credentials". *)
Theorem updateEmail_then_lookup w id dto u u' w' :
  wf_world w -> storedUser w id = Some u ->
  updateEmail id dto w = (Ok u', w') ->
  (forall email, toLowerCase email = toLowerCase (dto_email dto) ->
                 findOneByEmail email w' = (Ok u', w'))
  /\ (forall email, toLowerCase email = user_email u ->
                   findOneByEmail email w'
                   = (Throw (UnauthorizedException "Invalid credentials"),
                      w')).
Proof.
  intros Hwf Hu Hok.
  apply storedUser_Some in Hu as Hu'. destruct Hu' as [Hin Hid].
  rewrite updateEmail_run, Hu in Hok.
  destruct (compare (dto_password dto) (user_password u)); [|discriminate].
  cbn [negb] in Hok.
  destruct (bool_decide (user_email u = toLowerCase (dto_email dto))) eqn:Hsame;
    [discriminate|].
  apply bool_decide_eq_false in Hsame.
  destruct (decide (toLowerCase (dto_email dto)
                    ∈ (user_email <$> usersTable w))) as [|Hfree];
    [discriminate|].
  pose proof (saveEntity_keeps_wf _ _ _ _ _ Hwf Hok) as Hwf'.
  apply saveEntity_update_Ok in Hok as (-> & -> & _ & _).
  set (u' := set_email u (toLowerCase (dto_email dto))) in *.
  assert (Hread : storedUser (overwrite w u') id = Some u')
    by now apply (overwrite_stored w id u).
  apply storedUser_Some in Hread as [Hin' _].
  split.
  - intros email He. rewrite findOneByEmail_run, He.
    destruct Hwf' as (_ & Hemails & _).
    change (toLowerCase (dto_email dto)) with (user_email u').
    now rewrite (userByEmail_stored _ u' Hemails Hin').
  - intros email He. rewrite findOneByEmail_run, He.
    assert (Hgone : userByEmail (overwrite w u') (user_email u) = None).
    { apply userByEmail_None. intros Hmem.
      apply list_elem_of_fmap in Hmem as (r & Hr & Hrin).
      cbn [overwrite usersTable set_usersTable] in Hrin.
      apply elem_of_replaceRow in Hrin as [->|Hrin].
      - apply Hsame. exact Hr.
      - apply (wf_email_others w u u' Hwf Hin eq_refl).
        rewrite Hr. now apply list_elem_of_fmap_2. }
    now rewrite Hgone.
Qed.
(** ** Stored emails are in lower case *)

Lemma keeping_ret {A} (I : World -> Prop) (Q : A -> Prop) (a : A) :
  Q a -> keeping I (mret a) Q.
Proof.
  intros Ha w r w' Hw [= <- <-]. split; [exact Hw|]. now intros ? [= <-].
Qed.

Lemma keeping_throw {A} (I : World -> Prop) (Q : A -> Prop) (e : Exception) :
  keeping I (mthrow e : M A) Q.
Proof. intros w r w' Hw [= <- <-]. split; [exact Hw|]. discriminate. Qed.

Lemma keeping_bind {A B} (I : World -> Prop) (m : M A) (f : A -> M B)
    (Q : A -> Prop) (R : B -> Prop) :
  keeping I m Q -> (forall a, Q a -> keeping I (f a) R) ->
  keeping I (m ≫= f) R.
Proof.
  intros Hm Hf w r w' Hw. unfold mbind, M_bind.
  destruct (m w) as [[a|e] w1] eqn:Hrun.
  - destruct (Hm _ _ _ Hw Hrun) as [Hw1 Ha]. apply (Hf a); auto.
  - intros [= <- <-]. destruct (Hm _ _ _ Hw Hrun) as [Hw1 _].
    split; [exact Hw1|]. discriminate.
Qed.

Lemma keeping_read {A} (I : World -> Prop) (f : World -> A) (Q : A -> Prop) :
  (forall w, I w -> Q (f w)) -> keeping I (fun w => (Ok (f w), w)) Q.
Proof.
  intros Hf w r w' Hw [= <- <-]. split; [exact Hw|].
  intros a [= <-]. now apply Hf.
Qed.

Lemma repo_findOne_lower (P : UserEntity -> Prop)
    `{!forall u, Decision (P u)} :
  keeping emailsLower (repo_findOne P)
    (fun found => forall u, found = Some u -> lowerEmail u).
Proof.
  apply keeping_read. intros w Hw u Hfind.
  apply find_some in Hfind as [Hin _]. apply list_elem_of_In in Hin.
  unfold emailsLower in Hw. rewrite Forall_forall in Hw. now apply Hw.
Qed.

Lemma saveEntity_lower user isNew :
  lowerEmail user -> keeping emailsLower (saveEntity user isNew) lowerEmail.
Proof.
  intros Hu w r w' Hw. unfold saveEntity, emailsLower in *. destruct isNew.
  - destruct (uniqueViolation (usersTable w) (set_id user (nextId w)));
      intros [= <- <-]; (split; [|discriminate || now intros ? [= <-]]);
      [exact Hw|].
    cbn [usersTable]. apply Forall_app. split; [exact Hw|].
    now apply Forall_singleton.
  - destruct (uniqueViolation (otherRows user (usersTable w)) user);
      intros [= <- <-]; (split; [|discriminate || now intros ? [= <-]]);
      [exact Hw|].
    cbn [usersTable set_usersTable]. apply Forall_forall. intros x Hx.
    apply elem_of_replaceRow in Hx as [->|Hx]; [exact Hu|].
    apply elem_of_otherRows in Hx as [_ Hx].
    rewrite Forall_forall in Hw. now apply Hw.
Qed.

Lemma removeEntity_lower user :
  keeping emailsLower (removeEntity user) (fun _ => True).
Proof.
  intros w r w' Hw [= <- <-]. split; [|auto].
  unfold emailsLower in *. cbn [usersTable set_usersTable].
  rewrite Forall_forall in *. intros x Hx.
  apply elem_of_otherRows in Hx as [_ Hx]. now apply Hw.
Qed.

Lemma findOneById_lower id : keeping emailsLower (findOneById id) lowerEmail.
Proof.
  unfold findOneById. eapply keeping_bind; [apply repo_findOne_lower|].
  intros [u|] Hfound; cbn; [apply keeping_ret; auto|apply keeping_throw].
Qed.

Lemma findOneByCredentials_lower id version :
  keeping emailsLower (findOneByCredentials id version) lowerEmail.
Proof.
  unfold findOneByCredentials.
  eapply keeping_bind; [apply repo_findOne_lower|].
  intros [u|] Hfound; cbn.
  - eapply keeping_bind; [apply keeping_ret; apply (Hfound u eq_refl)|].
    intros a Ha.
    destruct (negb (cred_version (user_credentials a) =? version)%Z);
      [apply keeping_throw|now apply keeping_ret].
  - apply keeping_bind with (Q := fun _ => False); [apply keeping_throw|].
    intros a [].
Qed.

Lemma keeping_unit {A} (I : World -> Prop) (m : M A) (Q : A -> Prop) :
  keeping I m Q -> keeping I m (fun _ => True).
Proof. intros Hm w r w' Hw Hrun. split; [|auto]. now apply (Hm w r w'). Qed.

Section LowerCaseEmails.
(** Lower-casing a lower-cased string changes nothing. *)
Hypothesis toLowerCase_idem :
  forall s, toLowerCase (toLowerCase s) = toLowerCase s.

Lemma toLowerCase_lower (email : string) (u : UserEntity) :
  lowerEmail (set_email u (toLowerCase email)).
Proof. apply toLowerCase_idem. Qed.

(** X11. Every operation that writes the table ([create], [confirmEmail],
    [updatePassword], [resetPassword], [updateEmail], [delete],
    [updateName], [updateUsername], [updateOnlineStatus]) keeps the stored
    emails in lower case, whether it returns or throws, and the user it
    returns has a lower-case email. *)
Theorem emails_stay_lower_case :
  (forall email name provider password salt,
      keeping emailsLower (create email name provider password salt)
        lowerEmail)
  /\ (forall id version,
        keeping emailsLower (confirmEmail id version) lowerEmail)
  /\ (forall id old new salt,
        keeping emailsLower (updatePassword id old new salt) lowerEmail)
  /\ (forall id version new salt,
        keeping emailsLower (resetPassword id version new salt) lowerEmail)
  /\ (forall id dto, keeping emailsLower (updateEmail id dto) lowerEmail)
  /\ (forall id password,
        keeping emailsLower (delete id password) lowerEmail)
  /\ (forall id name, keeping emailsLower (updateName id name) lowerEmail)
  /\ (forall id username,
        keeping emailsLower (updateUsername id username) lowerEmail)
  /\ (forall id status,
        keeping emailsLower (updateOnlineStatus id status) lowerEmail).
Proof.
  repeat match goal with |- _ /\ _ => split end; intros.
  - unfold create. cbv zeta.
    eapply keeping_bind; [apply keeping_unit with (Q := fun _ => True)|].
    { unfold checkEmailUniqueness. eapply keeping_bind.
      - apply keeping_read with (Q := fun _ => True). auto.
      - intros n _. destruct (0 <? n)%nat;
          [apply keeping_throw|now apply keeping_ret]. }
    intros _ _. eapply keeping_bind.
    { unfold generateUsername. cbv zeta. eapply keeping_bind.
      - apply keeping_read with (Q := fun _ => True). auto.
      - intros n _. destruct (0 <? n)%nat;
          apply keeping_ret with (Q := fun _ => True); auto. }
    intros username _. apply saveEntity_lower. apply toLowerCase_idem.
  - unfold confirmEmail.
    eapply keeping_bind; [apply findOneByCredentials_lower|].
    intros u Hu. destruct (user_confirmed u); [apply keeping_throw|].
    now apply saveEntity_lower.
  - unfold updatePassword.
    eapply keeping_bind; [apply findOneById_lower|].
    intros u Hu. destruct (negb (compare old (user_password u)));
      [apply keeping_throw|].
    destruct (compare new (user_password u)); [apply keeping_throw|].
    now apply saveEntity_lower.
  - unfold resetPassword.
    eapply keeping_bind; [apply findOneByCredentials_lower|].
    intros u Hu. now apply saveEntity_lower.
  - unfold updateEmail.
    eapply keeping_bind; [apply findOneById_lower|].
    intros u Hu. cbv zeta.
    destruct (negb (compare (dto_password dto) (user_password u)));
      [apply keeping_throw|].
    destruct (bool_decide (user_email u = toLowerCase (dto_email dto)));
      [apply keeping_throw|].
    eapply keeping_bind.
    { unfold checkEmailUniqueness. eapply keeping_bind.
      - apply keeping_read with (Q := fun _ => True). auto.
      - intros n _. destruct (0 <? n)%nat;
          [apply keeping_throw|apply keeping_ret with (Q := fun _ => True)].
        auto. }
    intros _ _. apply saveEntity_lower. apply toLowerCase_lower.
  - unfold delete.
    eapply keeping_bind; [apply findOneById_lower|].
    intros u Hu. destruct (negb (compare password (user_password u)));
      [apply keeping_throw|].
    eapply keeping_bind; [apply removeEntity_lower|].
    intros _ _. now apply keeping_ret.
  - unfold updateName. cbv zeta.
    eapply keeping_bind; [apply findOneById_lower|].
    intros u Hu. eapply keeping_bind.
    { unfold generateUsername. cbv zeta. eapply keeping_bind.
      - apply keeping_read with (Q := fun _ => True). auto.
      - intros n _. destruct (0 <? n)%nat;
          apply keeping_ret with (Q := fun _ => True); auto. }
    intros username _. now apply saveEntity_lower.
  - unfold updateUsername.
    eapply keeping_bind; [apply findOneById_lower|].
    intros u Hu. cbv zeta. eapply keeping_bind.
    { unfold checkUsernameUniqueness. eapply keeping_bind.
      - apply keeping_read with (Q := fun _ => True). auto.
      - intros n _. destruct (0 <? n)%nat;
          [apply keeping_throw|apply keeping_ret with (Q := fun _ => True)].
        auto. }
    intros _ _. now apply saveEntity_lower.
  - unfold updateOnlineStatus.
    eapply keeping_bind; [apply findOneById_lower|].
    intros u Hu. eapply keeping_bind.
    { unfold cache_get. apply keeping_read with (Q := fun _ => True). auto. }
    intros [d|] _; now apply saveEntity_lower.
Qed.

(** X12. In a consistent store a stored user can be found by email exactly
    when its stored email is in lower case: then [findOneByEmail] returns it
    for its own email, and a user stored with an email that is not its
    lower-case form is returned for no argument at all. *)
Theorem findOneByEmail_finds_lower_case w u :
  wf_world w -> u ∈ usersTable w ->
  (lowerEmail u -> findOneByEmail (user_email u) w = (Ok u, w))
  /\ ((exists email, findOneByEmail email w = (Ok u, w)) <-> lowerEmail u).
Proof.
  intros (_ & Hemails & _) Hin.
  assert (Hfound : lowerEmail u ->
                   findOneByEmail (user_email u) w = (Ok u, w)).
  { intros Hlow. rewrite findOneByEmail_run, Hlow.
    now rewrite (userByEmail_stored w u Hemails Hin). }
  split; [exact Hfound|]. split.
  - intros (email & Hok). rewrite findOneByEmail_run in Hok.
    destruct (userByEmail w (toLowerCase email)) as [r|] eqn:Hfind;
      [|discriminate].
    injection Hok as ->. apply userByEmail_Some in Hfind as [_ He].
    unfold lowerEmail. rewrite He. apply toLowerCase_idem.
  - intros Hlow. exists (user_email u). now apply Hfound.
Qed.
End LowerCaseEmails.

(** ** The outcomes of [create] *)

Lemma startingWith_elem slug t r :
  r ∈ t -> String.prefix slug (user_username r) = true ->
  user_username r ∈ startingWith slug t.
Proof.
  intros Hr Hp. unfold startingWith. apply list_elem_of_fmap_2.
  apply list_elem_of_filter. auto.
Qed.

Lemma startingWith_stored slug t n :
  n ∈ startingWith slug t -> n ∈ (user_username <$> t).
Proof.
  unfold startingWith. intros Hn.
  apply list_elem_of_fmap in Hn as (r & -> & Hr).
  apply list_elem_of_filter in Hr as [_ Hr]. now apply list_elem_of_fmap_2.
Qed.

(** X13. [create] has three outcomes, tried in this order: the conflict
    error "Email already in use" when the lower-cased email is stored; a
    persistence error on the username column when the username that
    [generateUsername] made is stored already, which happens whenever the
    slug numbered by the count of usernames starting with it is itself one
    of these usernames (the count does not make the username unique); and
    otherwise the new user, with the lower-cased email, the formatted name
    and the generated username. A failed call writes nothing. *)
Theorem create_outcomes w email name provider password salt :
  let formattedEmail := toLowerCase email in
  let pointSlug := generatePointSlug (formatTitle name) in
  let username := numberedSlug pointSlug (likeCount pointSlug (usersTable w)) in
  (formattedEmail ∈ (user_email <$> usersTable w) ->
   create email name provider password salt w
   = (Throw (ConflictException "Email already in use"), w))
  /\ (formattedEmail ∉ (user_email <$> usersTable w) ->
      username ∈ (user_username <$> usersTable w) ->
      create email name provider password salt w
      = (Throw (UniqueConstraintViolation "username"), w))
  /\ (formattedEmail ∉ (user_email <$> usersTable w) ->
      like_plain pointSlug = true ->
      numberedSlug pointSlug (length (startingWith pointSlug (usersTable w)))
        ∈ startingWith pointSlug (usersTable w) ->
      create email name provider password salt w
      = (Throw (UniqueConstraintViolation "username"), w))
  /\ (formattedEmail ∉ (user_email <$> usersTable w) ->
      username ∉ (user_username <$> usersTable w) ->
      exists u w',
        create email name provider password salt w = (Ok u, w')
        /\ usersTable w' = (usersTable w ++ [u])%list
        /\ user_email u = formattedEmail
        /\ user_name u = formatTitle name
        /\ user_username u = username)
  /\ (forall e w', create email name provider password salt w = (Throw e, w') ->
                  w' = w).
Proof.
  intros formattedEmail pointSlug username.
  assert (Hclash : formattedEmail ∉ (user_email <$> usersTable w) ->
                   username ∈ (user_username <$> usersTable w) ->
                   create email name provider password salt w
                   = (Throw (UniqueConstraintViolation "username"), w)).
  { intros Hfresh Htaken. rewrite create_run, decide_False by exact Hfresh.
    unfold saveEntity, uniqueViolation. cbn [user_email user_username set_id
      repo_create]. fold formattedEmail pointSlug username.
    rewrite decide_False by exact Hfresh. now rewrite decide_True. }
  split; [|split; [exact Hclash|split; [|split]]].
  - intros Htaken. rewrite create_run. now rewrite decide_True.
  - intros Hfresh Hplain Hin. apply Hclash; [exact Hfresh|].
    subst username. rewrite likeCount_startingWith by exact Hplain.
    now apply (startingWith_stored pointSlug).
  - intros Hfresh Hfree. rewrite create_run, decide_False by exact Hfresh.
    unfold saveEntity, uniqueViolation. cbn [user_email user_username set_id
      repo_create]. fold formattedEmail pointSlug username.
    rewrite decide_False by exact Hfresh. rewrite decide_False by exact Hfree.
    eexists _, _. split; [reflexivity|]. repeat split.
  - intros e w'. apply create_Throw.
Qed.

(** ** Renaming *)

(** X14. [updateName] counts the user's own username. When the only stored
    username that starts with the slug of the new name is the user's own,
    the count is 1 and the call stores the slug followed by "1": a user
    whose username is the slug and who is renamed to the name it already
    has ends with a different username. *)
Theorem updateName_counts_own_username w id name u :
  wf_world w -> storedUser w id = Some u ->
  let formatName := formatTitle name in
  let pointSlug := generatePointSlug formatName in
  like_plain pointSlug = true ->
  startingWith pointSlug (usersTable w) = [user_username u] ->
  let u' := set_username (set_name u formatName) (pointSlug +:+ "1") in
  updateName id name w = (Ok u', overwrite w u')
  /\ storedUser (overwrite w u') id = Some u'
  /\ (user_username u = pointSlug -> user_username u' <> user_username u).
Proof.
  intros Hwf Hu formatName pointSlug Hplain Hown u'.
  apply storedUser_Some in Hu as Hu'. destruct Hu' as [Hin Hid].
  assert (Hname : numberedSlug pointSlug (likeCount pointSlug (usersTable w))
                  = pointSlug +:+ "1").
  { now rewrite likeCount_startingWith, Hown by exact Hplain. }
  split; [|split].
  - rewrite updateName_run, Hu. fold formatName pointSlug. rewrite Hname.
    fold u'. apply saveEntity_update_run.
    + now apply (wf_email_others w u u').
    + intros Hmem. apply list_elem_of_fmap in Hmem as (r & Hr & Hrin).
      apply elem_of_otherRows in Hrin as [Hne Hrin].
      assert (Hmine : user_username r
                      ∈ startingWith pointSlug (usersTable w)).
      { apply startingWith_elem; [exact Hrin|].
        rewrite <- Hr. apply prefix_app. }
      rewrite Hown in Hmine. apply list_elem_of_singleton in Hmine.
      apply Hne. cbn [user_id u' set_username set_name]. f_equal.
      destruct Hwf as (_ & _ & Hnames & _).
      now apply (NoDup_fmap_elem user_username (usersTable w)).
  - now apply (overwrite_stored w id u).
  - intros Hslug Heq. cbn [user_username u' set_username] in Heq.
    rewrite Hslug in Heq. now apply string_app_eq_self in Heq.
Qed.

(** ** Online status *)

Lemma replaceRow_idem u' t : replaceRow u' (replaceRow u' t) = replaceRow u' t.
Proof.
  unfold replaceRow. rewrite <- list_fmap_compose. apply list_fmap_ext.
  intros i r _. cbn.
  destruct (decide (user_id r = user_id u')) as [Heq|Hne].
  - now rewrite decide_True.
  - now rewrite decide_False.
Qed.

(** X15. [updateOnlineStatus] is idempotent: on a consistent store with the
    user stored, the call succeeds, and the same call made again returns
    the same user and leaves the world as the first call left it. *)
Theorem updateOnlineStatus_idempotent w id status u :
  wf_world w -> storedUser w id = Some u ->
  exists u1 w1,
    updateOnlineStatus id status w = (Ok u1, w1)
    /\ updateOnlineStatus id status w1 = (Ok u1, w1).
Proof.
  intros Hwf Hu.
  set (session := cacheStore w !! ("sessions:" +:+ pretty id)).
  set (u1 := match session with
             | Some _ => set_onlineStatus (set_defaultStatus u status) status
             | None => set_defaultStatus u status
             end).
  assert (Hkeys : user_id u1 = user_id u /\ user_email u1 = user_email u
                  /\ user_username u1 = user_username u).
  { subst u1. now destruct session. }
  destruct Hkeys as (Hid & He & Hn).
  destruct (saveEntity_same_keys w id u u1 Hwf Hu Hid He Hn)
    as [Hsave Hread].
  assert (Hwf1 : wf_world (overwrite w u1))
    by exact (saveEntity_keeps_wf _ _ _ _ _ Hwf Hsave).
  exists u1, (overwrite w u1). split.
  - rewrite updateOnlineStatus_run, Hu. exact Hsave.
  - rewrite updateOnlineStatus_run, Hread.
    change (cacheStore (overwrite w u1)) with (cacheStore w). fold session.
    assert (Hsame : match session with
                    | Some _ =>
                        set_onlineStatus (set_defaultStatus u1 status) status
                    | None => set_defaultStatus u1 status
                    end = u1).
    { subst u1. now destruct session. }
    rewrite Hsame.
    destruct (saveEntity_same_keys (overwrite w u1) id u1 u1 Hwf1 Hread
                eq_refl eq_refl eq_refl) as [Hsave1 _].
    rewrite Hsave1. unfold overwrite. cbn [usersTable set_usersTable].
    now rewrite replaceRow_idem.
Qed.

(** ** Passwords *)

(** X16. After a successful [resetPassword(id, version, new)], when
    [bcrypt] matches [new] against the hash it made of it, [delete(id, new)]
    succeeds and the id is no longer stored. This holds for an account
    whose password was the sentinel "UNSET" as for any other: the reset is
    the way to a deletable account. *)
Theorem resetPassword_then_delete w id version new salt u' w' :
  resetPassword id version new salt w = (Ok u', w') ->
  compare new (hash new 10 salt) = true ->
  user_password u' = hash new 10 salt
  /\ exists w'',
       delete id new w' = (Ok u', w'') /\ storedUser w'' id = None.
Proof.
  intros Hok Hmatch. rewrite resetPassword_run in Hok.
  destruct (storedUser w id) as [u|] eqn:Hu; [|discriminate].
  destruct (cred_version (user_credentials u) =? version)%Z; [|discriminate].
  apply saveEntity_update_Ok in Hok as (-> & -> & _).
  set (u' := withPassword u (hash new 10 salt)) in *.
  assert (Hread : storedUser (overwrite w u') id = Some u')
    by now apply (overwrite_stored w id u).
  split; [reflexivity|].
  rewrite delete_run, Hread.
  change (user_password u') with (hash new 10 salt). rewrite Hmatch.
  cbn [negb]. eexists. split; [reflexivity|].
  unfold storedUser. cbn [usersTable set_usersTable].
  rewrite find_otherRows, decide_True; [reflexivity|].
  now apply storedUser_Some in Hread as [_ ->].
Qed.

(** X17. The hash archived in the credentials is never compared with: after
    [updatePassword(id, old, new)] succeeded on a consistent store,
    [updatePassword(id, new, old)] succeeds too (when [bcrypt] matches [new]
    and does not match [old] against the new hash), so a user can go back to
    the previous password at once; the credentials then archive the hash of
    [new] and are two versions further. *)
Theorem previous_password_accepted_again w id old new salt salt2 u u1 w1 :
  wf_world w -> storedUser w id = Some u ->
  updatePassword id old new salt w = (Ok u1, w1) ->
  compare new (hash new 10 salt) = true ->
  compare old (hash new 10 salt) = false ->
  exists u2 w2,
    updatePassword id new old salt2 w1 = (Ok u2, w2)
    /\ user_password u2 = hash old 10 salt2
    /\ cred_lastPassword (user_credentials u2) = hash new 10 salt
    /\ cred_version (user_credentials u2)
       = (cred_version (user_credentials u) + 2)%Z.
Proof.
  intros Hwf Hu Hok Hnew Hold.
  pose proof (proj1 (proj2 (proj2 service_keeps_wf)) id old new salt
                w (Ok u1) w1 Hwf Hok) as Hwf1.
  rewrite updatePassword_run, Hu in Hok.
  destruct (compare old (user_password u)); [|discriminate].
  destruct (compare new (user_password u)); [discriminate|].
  cbn [negb] in Hok. apply saveEntity_update_Ok in Hok as (-> & -> & _).
  set (u1 := withPassword u (hash new 10 salt)) in *.
  assert (Hread : storedUser (overwrite w u1) id = Some u1)
    by now apply (overwrite_stored w id u).
  set (u2 := withPassword u1 (hash old 10 salt2)).
  destruct (saveEntity_same_keys (overwrite w u1) id u1 u2 Hwf1 Hread
              eq_refl eq_refl eq_refl) as [Hsave _].
  exists u2, (overwrite (overwrite w u1) u2).
  rewrite updatePassword_run, Hread.
  change (user_password u1) with (hash new 10 salt). rewrite Hnew, Hold.
  cbn [negb]. split; [exact Hsave|]. split; [reflexivity|].
  split; [reflexivity|]. cbn. lia.
Qed.
End MoreProperties.

(** * The properties on the sample instance *)

#[local] Existing Instance Sample.collaborators.

Lemma sample_world_wf : wf_world Sample.world3.
Proof. apply (bool_decide_unpack _). vm_compute. exact I. Qed.

Lemma sample_session_world_wf : wf_world Sample.world3s.
Proof. exact sample_world_wf. Qed.

Lemma sample_compare_unset (data : string) : compare data "UNSET" = false.
Proof. reflexivity. Qed.

(** C1 on the sample world: user 1 is at version 0. *)
Lemma findOneByCredentials_iff_version_witness :
  storedUser Sample.world3 1 = Some Sample.john
  /\ (findOneByCredentials 1 0 Sample.world3 = (Ok Sample.john, Sample.world3)
      <-> 0%Z = cred_version (user_credentials Sample.john))
  /\ findOneByCredentials 1 1 Sample.world3
     = (Throw (UnauthorizedException "Invalid credentials"), Sample.world3)
  /\ findOneByCredentials 9 0 Sample.world3
     = (Throw (UnauthorizedException "Invalid credentials"), Sample.world3).
Proof.
  split; [reflexivity|].
  destruct (findOneByCredentials_iff_version Sample.world3 1 0) as [H0 _].
  destruct (findOneByCredentials_iff_version Sample.world3 1 1) as [H1 _].
  destruct (findOneByCredentials_iff_version Sample.world3 9 0) as [_ H9].
  split; [exact (proj1 (H0 Sample.john eq_refl))|].
  split; [apply (proj2 (H1 Sample.john eq_refl)); discriminate|].
  apply H9. reflexivity.
Defined.

(** C2 on the sample world: user 1 changes "pw-a" for "new". *)
Lemma updatePassword_succeeds_iff_witness :
  wf_world Sample.world3
  /\ storedUser Sample.world3 1 = Some Sample.john
  /\ updatePassword 1 "pw-a" "new" "zz" Sample.world3
     = (Ok (withPassword Sample.john "$zz$new"),
        overwrite Sample.world3 (withPassword Sample.john "$zz$new"))
  /\ updatePassword 1 "pw-b" "new" "zz" Sample.world3
     = (Throw (BadRequestException "Wrong password"), Sample.world3)
  /\ updatePassword 1 "pw-a" "pw-a" "zz" Sample.world3
     = (Throw (BadRequestException "New password must be different"),
        Sample.world3).
Proof.
  split; [exact sample_world_wf|]. split; [reflexivity|].
  destruct (updatePassword_succeeds_iff Sample.world3 1 "pw-a" "new" "zz"
              Sample.john sample_world_wf eq_refl) as (_ & Hok & _).
  destruct (updatePassword_succeeds_iff Sample.world3 1 "pw-b" "new" "zz"
              Sample.john sample_world_wf eq_refl) as (_ & _ & Hwrong & _).
  destruct (updatePassword_succeeds_iff Sample.world3 1 "pw-a" "pw-a" "zz"
              Sample.john sample_world_wf eq_refl) as (_ & _ & _ & Hsame).
  split; [exact (proj1 (Hok eq_refl eq_refl))|].
  split; [exact (Hwrong eq_refl)|exact (Hsame eq_refl eq_refl)].
Defined.

(** C3, the claim as it stands, on the sample run [johns]: "John", "Johnny",
    "John". The second user whose name has the slug "john" is not given
    "john1": "johnny" starts with the slug too, the count is 2 and the
    username is "john2". *)
Lemma second_john_is_not_john1 :
  (generatePointSlug <$> (user_name <$> created Sample.johnsRun))
  = ["john"; "johnny"; "john"]
  /\ (user_username <$> withSlug "john" (created Sample.johnsRun))
     = ["john"; "john2"]
  /\ (user_username <$> withSlug "john" (created Sample.johnsRun))
     <> ["john"; "john1"].
Proof.
  split; [reflexivity|]. split; [reflexivity|]. vm_compute. discriminate.
Defined.

Lemma emptyWorld_wf : wf_world emptyWorld.
Proof. apply (bool_decide_unpack _). vm_compute. exact I. Qed.

(** C3, as amended, on the sample run [threeJohns]. *)
Lemma create_usernames_witness :
  wf_world emptyWorld
  /\ like_plain "john" = true
  /\ NoDup (user_username <$> created Sample.threeJohnsRun)
  /\ (user_username <$> withSlug "john" (created Sample.threeJohnsRun))
     = numberedSlug "john" <$> [0; 1; 2].
Proof.
  split; [exact emptyWorld_wf|]. split; [reflexivity|].
  destruct (create_usernames Sample.threeJohns emptyWorld "john"
              emptyWorld_wf eq_refl) as (Hdistinct & _ & Hnumbered).
  split; [exact Hdistinct|].
  refine (proj1 (Hnumbered eq_refl _)).
  repeat constructor.
Defined.

(** C4 on the sample world: "a@x.com" is registered, so a registration under
    "a@X.COM" is refused; and after a registration under "D@x.com" one under
    "d@X.com" is refused. *)
Lemma create_email_conflict_witness :
  create (H := Sample.collaborators) "a@X.COM" "Bob" Sample.LOCAL None ""
    Sample.world3
  = (Throw (ConflictException "Email already in use"), Sample.world3)
  /\ create (H := Sample.collaborators) "D@x.com" "Dan" Sample.LOCAL None ""
       Sample.world3
     = (Ok Sample.dan, Sample.worldDan)
  /\ user_email Sample.dan = "d@x.com"
  /\ create (H := Sample.collaborators) "d@X.com" "Dora" Sample.GOOGLE
       (Some "pw") "zz" Sample.worldDan
     = (Throw (ConflictException "Email already in use"), Sample.worldDan).
Proof.
  assert (Hrun : create (H := Sample.collaborators) "D@x.com" "Dan"
                   Sample.LOCAL None "" Sample.world3
                 = (Ok Sample.dan, Sample.worldDan))
    by (vm_compute; reflexivity).
  split; [|split; [exact Hrun|]].
  - apply (proj1 (create_email_conflict Sample.world3 "a@X.COM" "Bob"
                    Sample.LOCAL None "")).
    apply (bool_decide_unpack _). vm_compute. exact I.
  - destruct (proj2 (create_email_conflict Sample.world3 "D@x.com" "Dan"
                       Sample.LOCAL None "") Sample.dan Sample.worldDan Hrun)
      as (He & _ & Hagain).
    split; [exact He|]. apply Hagain. vm_compute. reflexivity.
Defined.

(** C5, the claim as it stands, on the sample world: the call
    [confirmEmail(1, 0)] succeeds, and the same call made again fails with
    the unauthorized error, not with a bad-request error. *)
Lemma confirmEmail_repeated_is_unauthorized :
  confirmEmail 1 0 Sample.world3
  = (Ok Sample.johnConfirmed, overwrite Sample.world3 Sample.johnConfirmed)
  /\ user_confirmed Sample.johnConfirmed = true
  /\ confirmEmail 1 0 (overwrite Sample.world3 Sample.johnConfirmed)
     = (Throw (UnauthorizedException "Invalid credentials"),
        overwrite Sample.world3 Sample.johnConfirmed)
  /\ confirmEmail 1 0 (overwrite Sample.world3 Sample.johnConfirmed)
     <> (Throw (BadRequestException "Email already confirmed"),
         overwrite Sample.world3 Sample.johnConfirmed).
Proof.
  split; [reflexivity|]. split; [reflexivity|].
  assert (Hsecond :
    confirmEmail 1 0 (overwrite Sample.world3 Sample.johnConfirmed)
    = (Throw (UnauthorizedException "Invalid credentials"),
       overwrite Sample.world3 Sample.johnConfirmed)) by reflexivity.
  split; [exact Hsecond|]. rewrite Hsecond. discriminate.
Defined.

(** C5, as amended, on the sample world. *)
Lemma confirmEmail_second_call_witness :
  confirmEmail 1 0 Sample.world3
  = (Ok Sample.johnConfirmed, overwrite Sample.world3 Sample.johnConfirmed)
  /\ confirmEmail 1 1 (overwrite Sample.world3 Sample.johnConfirmed)
     = (Throw (BadRequestException "Email already confirmed"),
        overwrite Sample.world3 Sample.johnConfirmed).
Proof.
  split; [reflexivity|].
  exact (proj2 (proj2 (proj2 (proj2 (proj2
    (confirmEmail_second_call Sample.world3 1 0 Sample.johnConfirmed
       (overwrite Sample.world3 Sample.johnConfirmed) eq_refl)))))).
Defined.

(** C6 on the sample world: user 1 moves to "New@x.com", and is refused
    "B@x.com", the email of user 2. *)
Lemma updateEmail_checks_in_order_witness :
  wf_world Sample.world3
  /\ storedUser Sample.world3 1 = Some Sample.john
  /\ updateEmail 1 {| dto_email := "New@x.com"; dto_password := "pw-a" |}
       Sample.world3
     = (Ok (set_email Sample.john "new@x.com"),
        overwrite Sample.world3 (set_email Sample.john "new@x.com"))
  /\ updateEmail 1 {| dto_email := "B@x.com"; dto_password := "pw-a" |}
       Sample.world3
     = (Throw (ConflictException "Email already in use"), Sample.world3).
Proof.
  split; [exact sample_world_wf|]. split; [reflexivity|].
  destruct (updateEmail_checks_in_order Sample.world3 1
              {| dto_email := "New@x.com"; dto_password := "pw-a" |}
              Sample.john sample_world_wf eq_refl) as (_ & _ & _ & Hok).
  destruct (updateEmail_checks_in_order Sample.world3 1
              {| dto_email := "B@x.com"; dto_password := "pw-a" |}
              Sample.john sample_world_wf eq_refl) as (_ & _ & Htaken & _).
  split.
  - refine (proj1 (Hok eq_refl _ _)); [discriminate|].
    intros (r & Hin & _ & He).
    apply (list_elem_of_fmap_2 user_email) in Hin. rewrite He in Hin.
    revert Hin. apply (bool_decide_unpack _). vm_compute. exact I.
  - refine (Htaken eq_refl _ _); [discriminate|].
    exists Sample.johnny. split; [|split; [discriminate|reflexivity]].
    apply (storedUser_Some Sample.world3 2). vm_compute. reflexivity.
Defined.

(** C7 on the sample worlds: without a session only the default status of
    user 1 moves to [BUSY]; with the session ["sessions:1"] both do. *)
Lemma updateOnlineStatus_session_gate_witness :
  wf_world Sample.world3
  /\ storedUser Sample.world3 1 = Some Sample.john
  /\ (exists u w',
        updateOnlineStatus (H := Sample.collaborators) 1 Sample.BUSY
          Sample.world3
        = (Ok u, w')
        /\ user_defaultStatus u = Sample.BUSY
        /\ user_onlineStatus u = Sample.OFFLINE)
  /\ (exists u w',
        updateOnlineStatus (H := Sample.collaborators) 1 Sample.BUSY
          Sample.world3s
        = (Ok u, w')
        /\ user_defaultStatus u = Sample.BUSY
        /\ user_onlineStatus u = Sample.BUSY).
Proof.
  split; [exact sample_world_wf|]. split; [reflexivity|].
  destruct (updateOnlineStatus_session_gate Sample.world3 1 Sample.BUSY
              Sample.john sample_world_wf eq_refl)
    as (Hrun & _ & Hdefault & _ & Hkept).
  destruct (updateOnlineStatus_session_gate Sample.world3s 1 Sample.BUSY
              Sample.john sample_session_world_wf eq_refl)
    as (Hrun' & _ & Hdefault' & Hset & _).
  split.
  - eexists _, _. split; [exact Hrun|]. split; [exact Hdefault|].
    exact (Hkept eq_refl).
  - eexists _, _. split; [exact Hrun'|]. split; [exact Hdefault'|].
    apply Hset. exists 7. reflexivity.
Defined.

(** C8 on the sample world: user 3 was registered without a password. *)
Lemma unset_password_blocks_gated_operations_witness :
  (forall data, compare data "UNSET" = false)
  /\ storedUser Sample.world3 3 = Some Sample.john2
  /\ updatePassword 3 "UNSET" "new" "zz" Sample.world3
     = (Throw (BadRequestException "Wrong password"), Sample.world3)
  /\ updateEmail 3 {| dto_email := "n@x.com"; dto_password := "" |}
       Sample.world3
     = (Throw (BadRequestException "Wrong password"), Sample.world3)
  /\ delete 3 "anything" Sample.world3
     = (Throw (BadRequestException "Wrong password"), Sample.world3).
Proof.
  split; [exact sample_compare_unset|]. split; [reflexivity|].
  destruct (unset_password_blocks_gated_operations sample_compare_unset)
    as [_ Hgate].
  split; [|split].
  - exact (proj1 (Hgate Sample.world3 3 Sample.john2 "UNSET" eq_refl eq_refl)
             "new" "zz").
  - exact (proj1 (proj2
             (Hgate Sample.world3 3 Sample.john2 "" eq_refl eq_refl))
             "n@x.com").
  - exact (proj2 (proj2
             (Hgate Sample.world3 3 Sample.john2 "anything" eq_refl eq_refl))).
Defined.

(** C9 on the sample world: user 1 resets the password to "pw-a", the one
    the account has. *)
Lemma resetPassword_same_password_allowed_witness :
  wf_world Sample.world3
  /\ storedUser Sample.world3 1 = Some Sample.john
  /\ cred_version (user_credentials Sample.john) = 0%Z
  /\ compare "pw-a" (user_password Sample.john) = true
  /\ resetPassword 1 0 "pw-a" "zz" Sample.world3
     = (Ok (withPassword Sample.john "$zz$pw-a"),
        overwrite Sample.world3 (withPassword Sample.john "$zz$pw-a"))
  /\ cred_version (user_credentials (withPassword Sample.john "$zz$pw-a"))
     = 1%Z.
Proof.
  split; [exact sample_world_wf|]. split; [reflexivity|].
  split; [reflexivity|]. split; [reflexivity|].
  destruct (resetPassword_same_password_allowed Sample.world3 1 0 "pw-a" "zz"
              Sample.john sample_world_wf eq_refl eq_refl)
    as (Hrun & _ & Hversion & _).
  split; [exact Hrun|exact Hversion].
Defined.

(** C10 on the sample world: user 2, "Johnny", takes the name "John"; three
    usernames start with "john", so the username becomes "john3". *)
Lemma updateName_changes_name_and_username_witness :
  storedUser Sample.world3 2 = Some Sample.johnny
  /\ updateName 2 "John" Sample.world3
     = (Ok (set_username (set_name Sample.johnny "John") "john3"),
        overwrite Sample.world3
          (set_username (set_name Sample.johnny "John") "john3")).
Proof.
  split; [reflexivity|].
  refine (proj1 (proj2
    (updateName_changes_name_and_username Sample.world3 2 "John"
       Sample.johnny eq_refl)) sample_world_wf _).
  apply (bool_decide_unpack _). vm_compute. exact I.
Defined.

(** * The further properties on the sample instance *)

Lemma sample_worldJohn_wf : wf_world Sample.worldJohn.
Proof. apply (bool_decide_unpack _). vm_compute. exact I. Qed.

(** X1 on the sample world: "Dan" registers under "D@x.com" and is found
    under its id and under "d@X.COM". *)
Lemma create_then_lookup_witness :
  wf_world Sample.world3
  /\ create (H := Sample.collaborators) "D@x.com" "Dan" Sample.LOCAL None ""
       Sample.world3
     = (Ok Sample.dan, Sample.worldDan)
  /\ findOneById 4 Sample.worldDan = (Ok Sample.dan, Sample.worldDan)
  /\ findOneByEmail "d@X.COM" Sample.worldDan
     = (Ok Sample.dan, Sample.worldDan).
Proof.
  assert (Hrun : create (H := Sample.collaborators) "D@x.com" "Dan"
                   Sample.LOCAL None "" Sample.world3
                 = (Ok Sample.dan, Sample.worldDan))
    by (vm_compute; reflexivity).
  split; [exact sample_world_wf|]. split; [exact Hrun|].
  destruct (create_then_lookup Sample.world3 "D@x.com" "Dan" Sample.LOCAL
              None "" Sample.dan Sample.worldDan sample_world_wf Hrun)
    as [Hid Hemail].
  split; [exact Hid|].
  apply (Hemail "d@X.COM"). vm_compute. reflexivity.
Defined.

(** X2 on the sample world: "A@X.com" finds user 1, "z@x.com" nobody. *)
Lemma findOneByEmail_unchecked_witness :
  findOneByEmail "A@X.com" Sample.world3 = (Ok Sample.john, Sample.world3)
  /\ uncheckedUserByEmail "A@X.com" Sample.world3
     = (Ok (Some Sample.john), Sample.world3)
  /\ findOneByEmail "z@x.com" Sample.world3
     = (Throw (UnauthorizedException "Invalid credentials"), Sample.world3)
  /\ uncheckedUserByEmail "z@x.com" Sample.world3 = (Ok None, Sample.world3).
Proof.
  destruct (findOneByEmail_unchecked Sample.world3 "A@X.com")
    as (_ & _ & _ & Hstored & _).
  destruct (findOneByEmail_unchecked Sample.world3 "z@x.com")
    as (_ & _ & _ & _ & Habsent & _).
  assert (Hin : Sample.john ∈ usersTable Sample.world3)
    by (apply (storedUser_Some Sample.world3 1); vm_compute; reflexivity).
  destruct (Hstored Sample.john (proj1 (proj2 sample_world_wf)) Hin)
    as [Hfound Hunchecked]; [vm_compute; reflexivity|].
  destruct Habsent as [Hthrow Hnull];
    [apply (bool_decide_unpack _); vm_compute; exact I|].
  auto.
Defined.

(** X3 on the sample world: "JOHNNY" finds user 2 in both modes, "nobody"
    fails in the two ways. *)
Lemma findOneByUsername_forAuth_witness :
  (forall s, toLowerCase (toLowerCase s) = toLowerCase s)
  /\ findOneByUsername "JOHNNY" true Sample.world3
     = (Ok Sample.johnny, Sample.world3)
  /\ findOneByUsername "JOHNNY" false Sample.world3
     = (Ok Sample.johnny, Sample.world3)
  /\ findOneByUsername "nobody" true Sample.world3
     = (Throw (UnauthorizedException "Invalid credentials"), Sample.world3)
  /\ findOneByUsername "nobody" false Sample.world3
     = (Throw (NotFoundException "User not found"), Sample.world3).
Proof.
  split; [exact toLowerAscii_idem|].
  destruct (findOneByUsername_forAuth (H := Sample.collaborators)
              toLowerAscii_idem Sample.world3
              "JOHNNY") as (_ & Hstored & _).
  destruct (findOneByUsername_forAuth (H := Sample.collaborators)
              toLowerAscii_idem Sample.world3
              "nobody") as (_ & _ & Habsent & _).
  assert (Hin : Sample.johnny ∈ usersTable Sample.world3)
    by (apply (storedUser_Some Sample.world3 2); vm_compute; reflexivity).
  assert (Hname : user_username Sample.johnny = toLowerCase "JOHNNY")
    by (vm_compute; reflexivity).
  split; [exact (Hstored Sample.johnny true
                   (proj1 (proj2 (proj2 sample_world_wf))) Hin Hname)|].
  split; [exact (Hstored Sample.johnny false
                   (proj1 (proj2 (proj2 sample_world_wf))) Hin Hname)|].
  apply Habsent. apply (bool_decide_unpack _). vm_compute. exact I.
Defined.

(** X4 on the sample world: user 1, "john", cannot take "Johnny" (user 2
    has it) nor "JOHN" (its own), and can take "Jack". *)
Lemma updateUsername_conflict_or_stored_witness :
  wf_world Sample.world3
  /\ storedUser Sample.world3 1 = Some Sample.john
  /\ updateUsername 1 "Johnny" Sample.world3
     = (Throw (ConflictException "Username already in use"), Sample.world3)
  /\ updateUsername 1 "JOHN" Sample.world3
     = (Throw (ConflictException "Username already in use"), Sample.world3)
  /\ updateUsername 1 "Jack" Sample.world3
     = (Ok (set_username Sample.john "jack"),
        overwrite Sample.world3 (set_username Sample.john "jack")).
Proof.
  split; [exact sample_world_wf|]. split; [reflexivity|].
  destruct (updateUsername_conflict_or_stored Sample.world3 1 "Johnny"
              Sample.john sample_world_wf eq_refl) as (Htaken & _).
  destruct (updateUsername_conflict_or_stored Sample.world3 1 "JOHN"
              Sample.john sample_world_wf eq_refl) as (_ & Hown & _).
  destruct (updateUsername_conflict_or_stored Sample.world3 1 "Jack"
              Sample.john sample_world_wf eq_refl) as (_ & _ & Hfree).
  split; [|split].
  - apply Htaken. apply (bool_decide_unpack _). vm_compute. exact I.
  - apply Hown. reflexivity.
  - apply Hfree. apply (bool_decide_unpack _). vm_compute. exact I.
Defined.

(** X5 on the sample world: once user 1 is "jack" it is found under "JACK"
    and no longer under "john". *)
Lemma updateUsername_then_lookup_witness :
  wf_world Sample.world3
  /\ updateUsername 1 "Jack" Sample.world3
     = (Ok (set_username Sample.john "jack"),
        overwrite Sample.world3 (set_username Sample.john "jack"))
  /\ findOneByUsername "JACK" true
       (overwrite Sample.world3 (set_username Sample.john "jack"))
     = (Ok (set_username Sample.john "jack"),
        overwrite Sample.world3 (set_username Sample.john "jack"))
  /\ findOneByUsername "john" false
       (overwrite Sample.world3 (set_username Sample.john "jack"))
     = (Throw (NotFoundException "User not found"),
        overwrite Sample.world3 (set_username Sample.john "jack")).
Proof.
  split; [exact sample_world_wf|]. split; [reflexivity|].
  destruct (updateUsername_then_lookup Sample.world3 1 "Jack"
              (set_username Sample.john "jack")
              (overwrite Sample.world3 (set_username Sample.john "jack"))
              sample_world_wf eq_refl) as [Hfound Hgone].
  split; [exact (Hfound "JACK" true eq_refl)|].
  exact (Hgone Sample.john "john" eq_refl eq_refl).
Defined.

(** X6 on the sample world: no user has the id 9. *)
Lemma missing_user_errors_witness :
  storedUser Sample.world3 9 = None
  /\ delete 9 "pw-a" Sample.world3
     = (Throw (NotFoundException "User not found"), Sample.world3)
  /\ resetPassword 9 0 "new" "zz" Sample.world3
     = (Throw (UnauthorizedException "Invalid credentials"), Sample.world3).
Proof.
  split; [reflexivity|].
  pose proof (missing_user_errors Sample.world3 9 eq_refl) as Hall.
  cbv zeta in Hall.
  destruct Hall as (_ & _ & _ & Hdelete & _ & _ & _ & _ & _ & Hreset).
  split; [exact (Hdelete "pw-a")|exact (Hreset 0%Z "new" "zz")].
Defined.

(** X7 on the sample world: user 1 leaves with the password "pw-a". *)
Lemma delete_removes_user_witness :
  storedUser Sample.world3 1 = Some Sample.john
  /\ compare "pw-a" (user_password Sample.john) = true
  /\ exists w',
       delete 1 "pw-a" Sample.world3 = (Ok Sample.john, w')
       /\ findOneById 1 w'
          = (Throw (NotFoundException "User not found"), w')
       /\ storedUser w' 2 = Some Sample.johnny.
Proof.
  split; [reflexivity|]. split; [reflexivity|].
  destruct (proj2 (delete_removes_user Sample.world3 1 "pw-a" Sample.john
                     eq_refl) eq_refl)
    as (w' & Hdel & _ & Hgone & Hothers & _).
  exists w'. split; [exact Hdel|]. split; [exact Hgone|].
  rewrite Hothers by discriminate. reflexivity.
Defined.

(** X8 on the sample world: user 1 changes its password at version 0; the
    version 0 is refused afterwards and the version 1 accepted. *)
Lemma password_change_uses_up_version_witness :
  storedUser Sample.world3 1 = Some Sample.john
  /\ updatePassword 1 "pw-a" "new" "zz" Sample.world3
     = (Ok (withPassword Sample.john "$zz$new"),
        overwrite Sample.world3 (withPassword Sample.john "$zz$new"))
  /\ resetPassword 1 0 "other" "zz"
       (overwrite Sample.world3 (withPassword Sample.john "$zz$new"))
     = (Throw (UnauthorizedException "Invalid credentials"),
        overwrite Sample.world3 (withPassword Sample.john "$zz$new"))
  /\ findOneByCredentials 1 1
       (overwrite Sample.world3 (withPassword Sample.john "$zz$new"))
     = (Ok (withPassword Sample.john "$zz$new"),
        overwrite Sample.world3 (withPassword Sample.john "$zz$new")).
Proof.
  split; [reflexivity|]. split; [reflexivity|].
  destruct (password_change_uses_up_version Sample.world3 1 Sample.john
              (withPassword Sample.john "$zz$new")
              (overwrite Sample.world3 (withPassword Sample.john "$zz$new"))
              eq_refl)
    as (_ & Hnext & _ & Hreset).
  { left. exists "pw-a", "new", "zz". reflexivity. }
  split; [exact (Hreset "other" "zz")|exact Hnext].
Defined.

(** X9 on the sample world: user 1 is renamed "jack"; its version 0 is
    accepted as before. *)
Lemma profile_changes_keep_credentials_witness :
  storedUser Sample.world3 1 = Some Sample.john
  /\ updateUsername 1 "Jack" Sample.world3
     = (Ok (set_username Sample.john "jack"),
        overwrite Sample.world3 (set_username Sample.john "jack"))
  /\ findOneByCredentials 1 0
       (overwrite Sample.world3 (set_username Sample.john "jack"))
     = (Ok (set_username Sample.john "jack"),
        overwrite Sample.world3 (set_username Sample.john "jack")).
Proof.
  split; [reflexivity|]. split; [reflexivity|].
  destruct (profile_changes_keep_credentials Sample.world3 1 Sample.john
              (set_username Sample.john "jack")
              (overwrite Sample.world3 (set_username Sample.john "jack"))
              eq_refl)
    as (_ & _ & _ & Hsame).
  { right. right. left. exists "Jack". reflexivity. }
  apply (Hsame 0%Z). reflexivity.
Defined.

(** X10 on the sample world: user 1 moves to "New@x.com". *)
Lemma updateEmail_then_lookup_witness :
  wf_world Sample.world3
  /\ storedUser Sample.world3 1 = Some Sample.john
  /\ updateEmail 1 {| dto_email := "New@x.com"; dto_password := "pw-a" |}
       Sample.world3
     = (Ok (set_email Sample.john "new@x.com"),
        overwrite Sample.world3 (set_email Sample.john "new@x.com"))
  /\ findOneByEmail "NEW@X.COM"
       (overwrite Sample.world3 (set_email Sample.john "new@x.com"))
     = (Ok (set_email Sample.john "new@x.com"),
        overwrite Sample.world3 (set_email Sample.john "new@x.com"))
  /\ findOneByEmail "A@x.com"
       (overwrite Sample.world3 (set_email Sample.john "new@x.com"))
     = (Throw (UnauthorizedException "Invalid credentials"),
        overwrite Sample.world3 (set_email Sample.john "new@x.com")).
Proof.
  split; [exact sample_world_wf|]. split; [reflexivity|].
  split; [reflexivity|].
  destruct (updateEmail_then_lookup Sample.world3 1
              {| dto_email := "New@x.com"; dto_password := "pw-a" |}
              Sample.john (set_email Sample.john "new@x.com")
              (overwrite Sample.world3 (set_email Sample.john "new@x.com"))
              sample_world_wf eq_refl eq_refl) as [Hnew Hold].
  split; [exact (Hnew "NEW@X.COM" eq_refl)|exact (Hold "A@x.com" eq_refl)].
Defined.

Lemma emptyWorld_emailsLower :
  emailsLower (H := Sample.collaborators) emptyWorld.
Proof. constructor. Qed.

(** X11 on the sample run: the registration under "A@x.com" leaves a store
    whose only email is in lower case. *)
Lemma emails_stay_lower_case_witness :
  (forall s, toLowerCase (toLowerCase s) = toLowerCase s)
  /\ emailsLower (H := Sample.collaborators) emptyWorld
  /\ create (H := Sample.collaborators) "A@x.com" "John" Sample.LOCAL
       (Some "pw-a") "s4lt" emptyWorld
     = (Ok Sample.john, Sample.worldJohn)
  /\ emailsLower Sample.worldJohn.
Proof.
  assert (Hrun : create (H := Sample.collaborators) "A@x.com" "John"
                   Sample.LOCAL (Some "pw-a") "s4lt" emptyWorld
                 = (Ok Sample.john, Sample.worldJohn))
    by (vm_compute; reflexivity).
  split; [exact toLowerAscii_idem|].
  split; [exact emptyWorld_emailsLower|]. split; [exact Hrun|].
  exact (proj1
    (proj1 (emails_stay_lower_case (H := Sample.collaborators)
              toLowerAscii_idem) "A@x.com" "John"
       Sample.LOCAL (Some "pw-a") "s4lt" emptyWorld (Ok Sample.john)
       Sample.worldJohn emptyWorld_emailsLower Hrun)).
Defined.

(** X12 on the sample world: user 1 is found under its stored email. *)
Lemma findOneByEmail_finds_lower_case_witness :
  (forall s, toLowerCase (toLowerCase s) = toLowerCase s)
  /\ wf_world Sample.world3
  /\ (Sample.john ∈ usersTable Sample.world3)
  /\ lowerEmail Sample.john
  /\ findOneByEmail "a@x.com" Sample.world3 = (Ok Sample.john, Sample.world3).
Proof.
  assert (Hin : Sample.john ∈ usersTable Sample.world3)
    by (apply (storedUser_Some Sample.world3 1); vm_compute; reflexivity).
  assert (Hlow : lowerEmail Sample.john) by (vm_compute; reflexivity).
  split; [exact toLowerAscii_idem|].
  split; [exact sample_world_wf|]. split; [exact Hin|].
  split; [exact Hlow|].
  exact (proj1 (findOneByEmail_finds_lower_case (H := Sample.collaborators)
              toLowerAscii_idem
                  Sample.world3 Sample.john sample_world_wf Hin) Hlow).
Defined.

(** X13 on the sample world with the one user "john1": a registration of
    "John" finds one username starting with "john", makes "john1", and is
    refused by the storage. *)
Lemma create_outcomes_witness :
  (user_username <$> usersTable Sample.worldJohn1) = ["john1"]
  /\ create (H := Sample.collaborators) "b@x.com" "John" Sample.LOCAL None ""
       Sample.worldJohn1
     = (Throw (UniqueConstraintViolation "username"), Sample.worldJohn1).
Proof.
  split; [reflexivity|].
  apply (proj1 (proj2 (proj2
    (create_outcomes Sample.worldJohn1 "b@x.com" "John" Sample.LOCAL
       None "")))).
  - apply (bool_decide_unpack _). vm_compute. exact I.
  - reflexivity.
  - vm_compute. left.
Defined.

(** X14 on the sample world with the one user "john": renamed "John", the
    name it has, the user becomes "john1". *)
Lemma updateName_counts_own_username_witness :
  wf_world Sample.worldJohn
  /\ storedUser Sample.worldJohn 1 = Some Sample.john
  /\ updateName 1 "John" Sample.worldJohn
     = (Ok (set_username (set_name Sample.john "John") "john1"),
        overwrite Sample.worldJohn
          (set_username (set_name Sample.john "John") "john1")).
Proof.
  split; [exact sample_worldJohn_wf|]. split; [reflexivity|].
  exact (proj1 (updateName_counts_own_username Sample.worldJohn 1 "John"
                  Sample.john sample_worldJohn_wf eq_refl eq_refl eq_refl)).
Defined.

(** X15 on the sample world with a session for user 1. *)
Lemma updateOnlineStatus_idempotent_witness :
  wf_world Sample.world3s
  /\ storedUser Sample.world3s 1 = Some Sample.john
  /\ exists u1 w1,
       updateOnlineStatus (H := Sample.collaborators) 1 Sample.BUSY
         Sample.world3s
       = (Ok u1, w1)
       /\ updateOnlineStatus (H := Sample.collaborators) 1 Sample.BUSY w1
          = (Ok u1, w1).
Proof.
  split; [exact sample_session_world_wf|]. split; [reflexivity|].
  exact (updateOnlineStatus_idempotent Sample.world3s 1 Sample.BUSY
           Sample.john sample_session_world_wf eq_refl).
Defined.

(** X16 on the sample world: user 3 has no password; after a reset to
    "fresh" it can be deleted with "fresh". *)
Lemma resetPassword_then_delete_witness :
  user_password Sample.john2 = "UNSET"
  /\ resetPassword 3 0 "fresh" "zz" Sample.world3
     = (Ok (withPassword Sample.john2 "$zz$fresh"),
        overwrite Sample.world3 (withPassword Sample.john2 "$zz$fresh"))
  /\ compare "fresh" (hash "fresh" 10 "zz") = true
  /\ exists w'',
       delete 3 "fresh"
         (overwrite Sample.world3 (withPassword Sample.john2 "$zz$fresh"))
       = (Ok (withPassword Sample.john2 "$zz$fresh"), w'')
       /\ storedUser w'' 3 = None.
Proof.
  split; [reflexivity|]. split; [reflexivity|]. split; [reflexivity|].
  exact (proj2 (resetPassword_then_delete Sample.world3 3 0 "fresh" "zz"
                  (withPassword Sample.john2 "$zz$fresh")
                  (overwrite Sample.world3
                     (withPassword Sample.john2 "$zz$fresh"))
                  eq_refl eq_refl)).
Defined.

(** X17 on the sample world: user 1 goes from "pw-a" to "new" and back. *)
Lemma previous_password_accepted_again_witness :
  wf_world Sample.world3
  /\ storedUser Sample.world3 1 = Some Sample.john
  /\ updatePassword 1 "pw-a" "new" "zz" Sample.world3
     = (Ok (withPassword Sample.john "$zz$new"),
        overwrite Sample.world3 (withPassword Sample.john "$zz$new"))
  /\ compare "new" (hash "new" 10 "zz") = true
  /\ compare "pw-a" (hash "new" 10 "zz") = false
  /\ exists u2 w2,
       updatePassword 1 "new" "pw-a" "yy"
         (overwrite Sample.world3 (withPassword Sample.john "$zz$new"))
       = (Ok u2, w2)
       /\ user_password u2 = hash "pw-a" 10 "yy"
       /\ cred_lastPassword (user_credentials u2) = hash "new" 10 "zz"
       /\ cred_version (user_credentials u2)
          = (cred_version (user_credentials Sample.john) + 2)%Z.
Proof.
  split; [exact sample_world_wf|]. split; [reflexivity|].
  split; [reflexivity|]. split; [reflexivity|]. split; [reflexivity|].
  exact (previous_password_accepted_again Sample.world3 1 "pw-a" "new" "zz"
           "yy" Sample.john (withPassword Sample.john "$zz$new")
           (overwrite Sample.world3 (withPassword Sample.john "$zz$new"))
           sample_world_wf eq_refl eq_refl eq_refl eq_refl).
Defined.
